(** * Cargo-manifest query client: pagination engine, record normalizer
      and two-identifier orchestrator of [src/main.py]

    The development embeds three pieces of [src/main.py]:

    - [CustomsQuery._parse_json_list] (lines 114-157), the record
      normalizer;
    - [CustomsQuery.fetch_data] (lines 21-112), the page-by-page fetch loop;
    - [task] inside [start_query] (lines 370-459), which runs the engine
      for the south and the north call sign and classifies the outcome.

    Python values are modelled as they reach the code: the body of a
    response is whatever [resp.json()] produced, so every field of a row
    can hold any JSON value.  Python exceptions are explicit results. *)

From Stdlib Require Import ZArith NArith List String Ascii Decimal DecimalPos.
From stdpp Require Import base option list gmap.

#[local] Set Warnings "-register-all".
#[local] Open Scope Z_scope.

(** ** Python strings

    A Python [str] is a sequence of Unicode code points; [len] and slices
    count code points, so the model is a list of code-point numbers. *)

Definition char := N.
Definition str := list N.

(** An ASCII literal of the source, as a [str]. *)
Definition lit (s : string) : str := N_of_ascii <$> list_ascii_of_string s.

(** [s[a:b]] for [0 <= a <= b]: slicing a [str] clamps and never raises. *)
Definition slice (s : str) (a b : nat) : str := take (b - a) (drop a s).

(** The decimal text of an [int]: the digits, with a leading [-] below
    zero.  This is [str(n)] and [f"{n}"] for an [int] within the digit limit
    of the interpreter (see [str_int] below), as status codes and list lengths
    are. *)
Fixpoint uint_digits (u : Decimal.uint) : str :=
  match u with
  | Nil => []
  | D0 u => 48%N :: uint_digits u
  | D1 u => 49%N :: uint_digits u
  | D2 u => 50%N :: uint_digits u
  | D3 u => 51%N :: uint_digits u
  | D4 u => 52%N :: uint_digits u
  | D5 u => 53%N :: uint_digits u
  | D6 u => 54%N :: uint_digits u
  | D7 u => 55%N :: uint_digits u
  | D8 u => 56%N :: uint_digits u
  | D9 u => 57%N :: uint_digits u
  end.

Definition str_of_int (z : Z) : str :=
  match Z.to_int z with
  | Decimal.Pos u => uint_digits u
  | Decimal.Neg u => 45%N :: uint_digits u
  end.

(** ** JSON values as Python objects

    [json.loads] yields [None], [bool], [int], [float], [str], [list] and
    [dict].  A float is a dyadic rational [m * 2^e], an infinity or NaN
    (Python's decoder accepts [NaN], [Infinity] and [-Infinity]); every
    binary64 value is of that form, and the three operations the code applies
    to a number ([int], [>=] against an [int], truth value) are exact on
    dyadic rationals. *)

Inductive pyfloat :=
| FNan
| FInf (negative : bool)
| FFin (m e : Z).

Inductive json :=
| JNull
| JBool (b : bool)
| JInt (z : Z)
| JFloat (f : pyfloat)
| JStr (s : str)
| JList (l : list json)
| JDict (d : gmap str json).

(** ** Exceptions *)

Inductive exn :=
| AttributeError
| TypeError
| ValueError
| OverflowError.

Inductive pyresult (A : Type) :=
| Return (a : A)
| Raise (e : exn).
Arguments Return {A} a.
Arguments Raise {A} e.

#[global] Instance pyresult_ret : MRet pyresult := @Return.
#[global] Instance pyresult_bind : MBind pyresult := fun A B f m =>
  match m with
  | Return a => f a
  | Raise e => Raise e
  end.

(** [try: body except Exception: handler]. *)
Definition try_except {A} (body : pyresult A) (handler : A) : A :=
  match body with
  | Return a => a
  | Raise _ => handler
  end.

(** ** Built-ins used on JSON values *)

(** Truth value, as tested by [if v] and [not v]. *)
Definition truthy (v : json) : bool :=
  match v with
  | JNull => false
  | JBool b => b
  | JInt z => negb (z =? 0)
  | JFloat FNan => true
  | JFloat (FInf _) => true
  | JFloat (FFin m _) => negb (m =? 0)
  | JStr s => negb (Nat.eqb (length s) 0)
  | JList l => negb (Nat.eqb (length l) 0)
  | JDict d => negb (Nat.eqb (size d) 0)
  end.

(** [d.get(k)] and [d.get(k, default)] on a [dict]. *)
Definition dict_get (d : gmap str json) (k : str) : json := default JNull (d !! k).
Definition dict_get_default (d : gmap str json) (k : str) (dflt : json) : json :=
  default dflt (d !! k).

(** [v.get]: only a [dict] has the attribute. *)
Definition get (v : json) (k : str) : pyresult json :=
  match v with
  | JDict d => Return (dict_get d k)
  | _ => Raise AttributeError
  end.
Definition get_default (v : json) (k : str) (dflt : json) : pyresult json :=
  match v with
  | JDict d => Return (dict_get_default d k dflt)
  | _ => Raise AttributeError
  end.

(** [for row in v]: the elements of a list, the characters of a string, the
    keys of a dict; other values are not iterable.  (A dict is iterated in
    insertion order, a [gmap] in key order: only whether the dict is empty and
    that its keys are strings matter below.) *)
Definition iterate (v : json) : pyresult (list json) :=
  match v with
  | JList l => Return l
  | JStr s => Return ((fun c => JStr [c]) <$> s)
  | JDict d => Return (JStr <$> (map_to_list d).*1)
  | _ => Raise TypeError
  end.

(** *** [int(s)] for a string

    CPython first rewrites the string to ASCII: characters below 127 are
    kept, other Unicode white space becomes a blank, other Unicode decimal
    digits become the ASCII digit of the same value, and anything else
    becomes [?].  The result is read as: white space, an optional sign,
    digits with single underscores between them, white space. *)

(** Code point of the digit zero of every decimal-digit block. *)
Definition decimal_zeros : list N :=
  [48; 1632; 1776; 1984; 2406; 2534; 2662; 2790; 2918; 3046; 3174; 3302;
   3430; 3558; 3664; 3792; 3872; 4160; 4240; 6112; 6160; 6470; 6608; 6784;
   6800; 6992; 7088; 7232; 7248; 42528; 43216; 43264; 43472; 43504; 43600;
   44016; 65296; 66720; 68912; 69734; 69872; 69942; 70096; 70384; 70736;
   70864; 71248; 71360; 71472; 71904; 72016; 72784; 73040; 73120; 92768;
   92864; 93008; 120782; 120792; 120802; 120812; 120822; 123200; 123632;
   125264; 130032]%N.

Definition to_decimal (c : char) : option N :=
  (fun z => c - z)%N <$>
    List.find (fun z => (z <=? c)%N && (c <? z + 10)%N) decimal_zeros.

Definition unicode_isspace (c : char) : bool :=
  existsb (N.eqb c)
    [9; 10; 11; 12; 13; 28; 29; 30; 31; 32; 133; 160; 5760; 8192; 8193; 8194;
     8195; 8196; 8197; 8198; 8199; 8200; 8201; 8202; 8232; 8233; 8239; 8287;
     12288]%N.

Definition to_ascii (c : char) : char :=
  if (c <? 127)%N then c
  else if unicode_isspace c then 32%N
  else match to_decimal c with
       | Some d => (48 + d)%N
       | None => 63%N
       end.

Definition c_isspace (c : char) : bool :=
  existsb (N.eqb c) [9; 10; 11; 12; 13; 32]%N.

Definition is_digit (c : char) : bool := (48 <=? c)%N && (c <=? 57)%N.

Definition digit_value (c : char) : Z := Z.of_N (c - 48).

Fixpoint skip_space (s : str) : str :=
  match s with
  | c :: s' => if c_isspace c then skip_space s' else s
  | [] => []
  end.

(** The interpreter's limit on the number of decimal digits in a conversion
    between [str] and [int] ([sys.get_int_max_str_digits()], 4300 unless
    reconfigured): beyond it both directions raise [ValueError]. *)
Definition max_str_digits : Z := 4300.

(** The digit scan: [acc] is the value read so far, [digits] the number of
    digits read, [prev_us] whether the previous character was an underscore.
    Returns the value, the number of digits and the unread rest, or [None] for
    a doubled or trailing underscore or no digit at all. *)
Fixpoint scan_digits (s : str) (acc digits : Z) (prev_us : bool)
    : option (Z * Z * str) :=
  match s with
  | c :: s' =>
      if is_digit c then scan_digits s' (10 * acc + digit_value c) (digits + 1) false
      else if (c =? 95)%N then
        if prev_us then None else scan_digits s' acc digits true
      else if prev_us || (digits =? 0) then None else Some (acc, digits, s)
  | [] => if prev_us || (digits =? 0) then None else Some (acc, digits, [])
  end.

Definition int_of_str (s : str) : option Z :=
  let s := skip_space (to_ascii <$> s) in
  let '(negative, s) :=
    match s with
    | 43%N :: s' => (false, s')
    | 45%N :: s' => (true, s')
    | _ => (false, s)
    end in
  match s with
  | 95%N :: _ => None
  | _ =>
      '(v, digits, rest) ← scan_digits s 0 0 false;
      if max_str_digits <? digits then None
      else match skip_space rest with
           | [] => Some (if negative then - v else v)
           | _ => None
           end
  end.

(** [str(n)] with the limit: an [int] of more than [max_str_digits] digits
    is rejected. *)
Definition str_int (n : Z) : pyresult str :=
  if 10 ^ max_str_digits <=? Z.abs n then Raise ValueError
  else Return (str_of_int n).

(** [int(v)]: identity on an [int], 0 or 1 for a [bool], truncation towards
    zero for a finite float. *)
Definition int_of_float (f : pyfloat) : pyresult Z :=
  match f with
  | FNan => Raise ValueError
  | FInf _ => Raise OverflowError
  | FFin m e => Return (if 0 <=? e then m * 2 ^ e else Z.quot m (2 ^ (- e)))
  end.

Definition py_int (v : json) : pyresult Z :=
  match v with
  | JInt z => Return z
  | JBool b => Return (Z.b2z b)
  | JFloat f => int_of_float f
  | JStr s => match int_of_str s with
              | Some z => Return z
              | None => Raise ValueError
              end
  | JNull | JList _ | JDict _ => Raise TypeError
  end.

(** [n >= v] for an [int] [n]: exact against numbers, [TypeError] against
    anything else. *)
Definition int_ge (n : Z) (v : json) : pyresult bool :=
  match v with
  | JInt t => Return (t <=? n)
  | JBool b => Return (Z.b2z b <=? n)
  | JFloat FNan => Return false
  | JFloat (FInf negative) => Return negative
  | JFloat (FFin m e) =>
      Return (if 0 <=? e then m * 2 ^ e <=? n else m <=? n * 2 ^ (- e))
  | JNull | JStr _ | JList _ | JDict _ => Raise TypeError
  end.

(** ** The record normalizer ([_parse_json_list], lines 114-157) *)

(** One output dict of the normalizer.  [so_no], [decl_no] and [vsl_name]
    hold whatever JSON value the row had; [qty], [date] and [query_code] are
    always strings. *)
Record item := {
  so_no : json;
  decl_no : json;
  vsl_name : json;
  qty : str;
  date : str;
  query_code : str
}.

(** The string constants of the normalizer, as code points: the
    placeholder for a missing warehousing time, 尚無時間 ("no time yet",
    line 128), and the default of [soNo], 無 S/O ("no S/O", line 149). *)
Definition no_date : str := [23578; 28961; 26178; 38291]%N.
Definition no_so : str := [28961; 32; 83; 47; 79]%N.

(** Lines 132-137: the f-string over the five slices. *)
Definition format_date (raw_date : str) : str :=
  let yyyy := slice raw_date 0 4 in
  let mm := slice raw_date 4 6 in
  let dd := slice raw_date 6 8 in
  let hh := slice raw_date 9 11 in
  let minute := slice raw_date 11 13 in
  yyyy ++ lit "/" ++ mm ++ lit "/" ++ dd ++ lit " " ++ hh ++ lit ":" ++ minute.

(** Lines 127-139.  The [try] around the slices has nothing to catch: a
    slice of a [str] does not raise, so the handler [fmt_date = raw_date] is
    never entered. *)
Definition fmt_date_of (raw_date : json) : str :=
  match raw_date with
  | JStr s =>
      if truthy raw_date && (12 <=? length s)%nat
      then try_except (Return (format_date s)) s
      else no_date
  | _ => no_date
  end.

(** Lines 141-146. *)
Definition qty_str_of (qty : json) : str :=
  try_except
    (match qty with
     | JNull => Return (lit "0")
     | _ => z ← py_int qty; str_int z
     end)
    (lit "0").

(** [query_code or ""] (line 154). *)
Definition or_empty (query_code : option str) : str :=
  match query_code with
  | Some (c :: s) => c :: s
  | Some [] | None => []
  end.

(** The body of the [for] loop (lines 127-156), up to the [append].  Every
    [row.get] raises [AttributeError] when [row] is not a dict. *)
Definition row_item (query_code : option str) (row : json) : pyresult item :=
  raw_date ← get row (lit "inWareDate1");
  let fmt_date := fmt_date_of raw_date in
  qty ← get row (lit "packQty1");
  let qty_str := qty_str_of qty in
  so ← get_default row (lit "soNo") (JStr no_so);
  decl ← get_default row (lit "declNo") (JStr []);
  vsl ← get_default row (lit "vslName") (JStr []);
  Return {| so_no := so;
            decl_no := decl;
            vsl_name := vsl;
            qty := qty_str;
            date := fmt_date;
            query_code := or_empty query_code |}.

(** The loop: [results] grows by [append], an exception leaves the loop. *)
Fixpoint parse_rows (query_code : option str) (rows : list json)
    (results : list item) : pyresult (list item) :=
  match rows with
  | [] => Return results
  | row :: rows' =>
      it ← row_item query_code row;
      parse_rows query_code rows' (results ++ [it])
  end.

Definition _parse_json_list (raw_list : json) (query_code : option str)
    : pyresult (list item) :=
  rows ← iterate raw_list;
  parse_rows query_code rows [].

(** ** The pagination engine ([fetch_data], lines 21-112) *)

(** What one [session.post] gives the loop: an exception (with its text), or
    a response with a status code whose body [resp.json()] either rejects
    (with the exception text; [text] is [resp.text]) or decodes. *)
Inductive body :=
| BadJson (e : str) (text : str)
| Json (json_data : json).

Inductive response :=
| ConnError (e : str)
| Http (status_code : Z) (b : body).

(** An element of the list [fetch_data] returns: the engine reports a failed
    run as a one-element list holding a dict with an ["error"] key (and a
    ["raw"] key for an undecodable body), a successful run as the list of
    normalized items. *)
Inductive entry :=
| ErrorDict (error : str) (raw : option str)
| ItemDict (it : item).

(** Message prefixes of lines 77, 83 and 90: 連線失敗： ("connection
    failed:"), 伺服器錯誤：HTTP  ("server error: HTTP ") and 資料解析錯誤：
    ("data parse error:"). *)
Definition msg_conn : str := [36899; 32218; 22833; 25943; 65306]%N.
Definition msg_http : str :=
  [20282; 26381; 22120; 37679; 35492; 65306; 72; 84; 84; 80; 32]%N.
Definition msg_parse : str := [36039; 26009; 35299; 26512; 37679; 35492; 65306]%N.

(** How one pass through the body of [while True] ends: at the bottom of the
    loop (next page), at a [break], or at a [return] or an uncaught
    exception. *)
Inductive loop_exit :=
| NextPage (all_results : list item)
| Break (all_results : list item)
| Leave (r : pyresult (list entry)).

(** [if not all_results: return [{"error": ...}]] followed by [break]. *)
Definition fail_or_break (all_results : list item) (err : entry) : loop_exit :=
  match all_results with
  | [] => Leave (Return [err])
  | _ :: _ => Break all_results
  end.

(** Lines 67-106 for the response to the current page.  [page_size] is not
    compared with anything: it only goes into the request. *)
Definition page_step (query_code : str) (all_results : list item)
    (resp : response) : loop_exit :=
  match resp with
  | ConnError e => fail_or_break all_results (ErrorDict (msg_conn ++ e) None)
  | Http status_code b =>
      if negb (status_code =? 200) then
        fail_or_break all_results
          (ErrorDict (msg_http ++ str_of_int status_code) None)
      else
        match b with
        | BadJson e text =>
            fail_or_break all_results
              (ErrorDict (msg_parse ++ e) (Some (slice text 0 200)))
        | Json json_data =>
            match
              total_count ← get_default json_data (lit "total") (JInt 0);
              raw_data ← get_default json_data (lit "data") (JList []);
              if negb (truthy raw_data) then Return (Break all_results)
              else
                parsed_page ← _parse_json_list raw_data (Some query_code);
                let all_results := all_results ++ parsed_page in
                stop ← int_ge (Z.of_nat (length all_results)) total_count;
                Return (if stop : bool then Break all_results
                        else NextPage all_results)
            with
            | Return x => x
            | Raise e => Leave (Raise e)
            end
        end
  end.

(** The [while True] loop.  [post p] is the outcome of the request for page
    [p] of this run; [fuel] bounds the number of passes, and [None] means the
    loop is still running when the fuel is used up. *)
Fixpoint fetch_loop (fuel : nat) (post : Z → response) (query_code : str)
    (all_results : list item) (current_page : Z)
    : option (pyresult (list entry)) :=
  match fuel with
  | O => None
  | S fuel' =>
      match page_step query_code all_results (post current_page) with
      | NextPage all_results' =>
          fetch_loop fuel' post query_code all_results' (current_page + 1)
      | Break all_results' => Some (Return (ItemDict <$> all_results'))
      | Leave r => Some r
      end
  end.

(** [fetch_data].  The warm-up [GET] (lines 33-41) ignores its own failure
    and the pause between pages does nothing to the list; both are left out.
    The progress callback is left out here too: this is the run without a
    callback, or with one that returns every time it is called.  The loop
    with its callback, its requests and its pauses is [fetch_loop_log]
    below. *)
Definition fetch_data (fuel : nat) (post : Z → response) (vsl_reg_no : str)
    (query_code : option str) : option (pyresult (list entry)) :=
  let query_code := match query_code with
                    | None => vsl_reg_no
                    | Some c => c
                    end in
  fetch_loop fuel post query_code [] 1.

(** ** The orchestrator ([task] in [start_query], lines 370-459) *)

(** What [task] hands to the display: a call of [show_results] with a list,
    a call of [apply_filter] (which shows the entries of [all_results] that
    match the filter box), or the text of an unexpected exception. *)
Inductive ui_call :=
| NoCall
| ShowResults (data : list entry)
| ApplyFilter
| ShowException (e : exn).

(** The widgets and the [nonlocal] list that [task] writes. *)
Record ui := {
  status_text : str;
  loading_visible : bool;
  btn_query_disabled : bool;
  all_results : list entry;
  last_call : ui_call
}.

(** Status lines and message parts, in order: 南掛  ("south sign "), 北掛
    ("north sign "),  查詢失敗： (" query failed:"), the full-width semicolon
    ；, 查詢失敗，請稍後再試 ("query failed, try again later"),
    查詢完成：查無資料 ("query done: no data"), 查詢完成，共  ("query done, in
    all "),  筆資料 (" records"),  筆資料（但有部分掛號查詢失敗） (" records
    (but some call signs failed)") and 查詢過程發生未預期錯誤 ("unexpected
    error during query"). *)
Definition msg_south : str := [21335; 25499; 32]%N.
Definition msg_north : str := [21271; 25499; 32]%N.
Definition msg_query_failed : str := [32; 26597; 35426; 22833; 25943; 65306]%N.
Definition msg_sep : str := [65307]%N.
Definition status_failed : str :=
  [26597; 35426; 22833; 25943; 65292; 35531; 31245; 24460; 20877; 35430]%N.
Definition status_no_data : str :=
  [26597; 35426; 23436; 25104; 65306; 26597; 28961; 36039; 26009]%N.
Definition status_done : str := [26597; 35426; 23436; 25104; 65292; 20849; 32]%N.
Definition status_records : str := [32; 31558; 36039; 26009]%N.
Definition status_records_partial : str :=
  [32; 31558; 36039; 26009; 65288; 20294; 26377; 37096; 20998; 25499; 34399;
   26597; 35426; 22833; 25943; 65289]%N.
Definition status_unexpected : str :=
  [26597; 35426; 36942; 31243; 30332; 29983; 26410; 38928; 26399; 37679; 35492]%N.

(** [sep.join(l)]. *)
Fixpoint join (sep : str) (l : list str) : str :=
  match l with
  | [] => []
  | [x] => x
  | x :: l' => x ++ sep ++ join sep l'
  end.

(** [data and isinstance(data[0], dict) and "error" in data[0]], with the
    value of [data[0].get('error')]. *)
Definition error_of (data : list entry) : option str :=
  match data with
  | ErrorDict error _ :: _ => Some error
  | _ => None
  end.

(** Lines 377-392 and 395-410: one call sign.  Nothing is fetched for an
    empty code.  The state is the pair of [combined_results] and
    [error_messages]; [None] when the engine does not return. *)
Definition query_one (fetch : str → option str → option (pyresult (list entry)))
    (label code : str) (st : list entry * list str)
    : option (pyresult (list entry * list str)) :=
  let '(combined_results, error_messages) := st in
  match code with
  | [] => Some (Return st)
  | _ :: _ =>
      match fetch code (Some code) with
      | None => None
      | Some (Raise e) => Some (Raise e)
      | Some (Return data) =>
          match error_of data with
          | Some error =>
              Some (Return (combined_results,
                            error_messages ++ [label ++ code ++ msg_query_failed ++ error]))
          | None => Some (Return (combined_results ++ data, error_messages))
          end
      end
  end.

(** Lines 412-446, after both queries: the progress bar is hidden and the
    button enabled again, then the three-way test on the two lists. *)
Definition classify (combined_results : list entry) (error_messages : list str)
    (u : ui) : ui :=
  match combined_results, error_messages with
  | [], _ :: _ =>
      {| status_text := status_failed;
         loading_visible := false;
         btn_query_disabled := false;
         all_results := all_results u;
         last_call := ShowResults [ErrorDict (join msg_sep error_messages) None] |}
  | [], [] =>
      {| status_text := status_no_data;
         loading_visible := false;
         btn_query_disabled := false;
         all_results := [];
         last_call := ShowResults [] |}
  | _ :: _, _ =>
      let total_count := Z.of_nat (length combined_results) in
      {| status_text :=
           match error_messages with
           | _ :: _ => status_done ++ str_of_int total_count ++ status_records_partial
           | [] => status_done ++ str_of_int total_count ++ status_records
           end;
         loading_visible := false;
         btn_query_disabled := false;
         all_results := combined_results;
         last_call := ApplyFilter |}
  end.

(** [task]: [fetch] is the bound method [query_service.fetch_data], called
    with [query_code] set to the call sign.  The south sign is queried
    first; an exception anywhere lands in the handler of lines 448-459. *)
Definition task (fetch : str → option str → option (pyresult (list entry)))
    (south_code north_code : str) (u : ui) : option ui :=
  r ← (r1 ← query_one fetch msg_south south_code ([], []);
       match r1 with
       | Raise e => Some (Raise e)
       | Return st => query_one fetch msg_north north_code st
       end);
  Some match r with
       | Return (combined_results, error_messages) =>
           classify combined_results error_messages u
       | Raise e =>
           {| status_text := status_unexpected; loading_visible := false;
              btn_query_disabled := false; all_results := all_results u;
              last_call := ShowException e |}
       end.

(** ** Vocabulary of the specification *)

(** A raw row of the upstream server is a mapping. *)
Definition is_dict (v : json) : bool :=
  match v with
  | JDict _ => true
  | _ => false
  end.

(** The item the loop body builds from a dict (see [row_item_dict]). *)
Definition item_of_row (query_code : option str) (row : gmap str json) : item :=
  {| so_no := dict_get_default row (lit "soNo") (JStr no_so);
     decl_no := dict_get_default row (lit "declNo") (JStr []);
     vsl_name := dict_get_default row (lit "vslName") (JStr []);
     qty := qty_str_of (dict_get row (lit "packQty1"));
     date := fmt_date_of (dict_get row (lit "inWareDate1"));
     query_code := or_empty query_code |}.

(** Decimal text of a non-negative integer, and of any integer. *)
Definition nat_string (s : str) : bool :=
  negb (Nat.eqb (length s) 0) && forallb is_digit s.

Definition int_string (s : str) : bool :=
  match s with
  | c :: s' => if (c =? 45)%N then nat_string s' else nat_string s
  | [] => false
  end.

(** The shape [YYYY/MM/DD HH:MM]: sixteen characters, digits around the two
    slashes, the blank and the colon. *)
Definition well_formed_timestamp (s : str) : bool :=
  match s with
  | [y1; y2; y3; y4; a; m1; m2; b; d1; d2; c; h1; h2; d; n1; n2] =>
      forallb is_digit [y1; y2; y3; y4; m1; m2; d1; d2; h1; h2; n1; n2]
      && (a =? 47)%N && (b =? 47)%N && (c =? 32)%N && (d =? 58)%N
  | _ => false
  end.

(** A raw timestamp that is not a string, or a string of fewer than twelve
    characters ([None], which [get] returns for an absent key, is not a
    string). *)
Definition short_or_not_str (v : json) : bool :=
  match v with
  | JStr s => (length s <? 12)%nat
  | _ => true
  end.

(** A raw string with digits at offsets 0-7 and 9-12. *)
Definition positional_digits (s : str) : bool :=
  (13 <=? length s)%nat && forallb is_digit (slice s 0 8 ++ slice s 9 13).

(** The run outcome of the specification and the list [fetch_data] returns
    for it. *)
Inductive RunOutcome :=
| Ok (records : list item)
| Failed (reason : str) (raw_snippet : option str).

Definition encode (o : RunOutcome) : list entry :=
  match o with
  | Ok records => ItemDict <$> records
  | Failed reason raw_snippet => [ErrorDict reason raw_snippet]
  end.

(** Transport-level failure in the words of the specification: a connection
    exception, a status outside 200-299, or a body that is not JSON. *)
Definition transport_failed (resp : response) : bool :=
  match resp with
  | ConnError _ => true
  | Http status_code b =>
      negb ((200 <=? status_code) && (status_code <? 300))
      || match b with
         | BadJson _ _ => true
         | Json _ => false
         end
  end.

(** The error dict of lines 77, 83 and 90 for a response the loop rejects. *)
Definition failure_report (resp : response) : option entry :=
  match resp with
  | ConnError e => Some (ErrorDict (msg_conn ++ e) None)
  | Http status_code b =>
      if negb (status_code =? 200)
      then Some (ErrorDict (msg_http ++ str_of_int status_code) None)
      else match b with
           | BadJson e text =>
               Some (ErrorDict (msg_parse ++ e) (Some (slice text 0 200)))
           | Json _ => None
           end
  end.

(** [reaches post qc p acc]: the loop arrives at the top of its pass for page
    [p] with [acc] in [all_results]. *)
Inductive reaches (post : Z → response) (qc : str) : Z → list item → Prop :=
| reaches_first : reaches post qc 1 []
| reaches_next p acc acc' :
    reaches post qc p acc →
    page_step qc acc (post p) = NextPage acc' →
    reaches post qc (p + 1) acc'.

(** The records of one page, and of the first [n] pages of a run. *)
Definition page_items (qc : str) (resp : response) : list item :=
  match resp with
  | Http _ (Json (JDict d)) =>
      match _parse_json_list (dict_get_default d (lit "data") (JList [])) (Some qc) with
      | Return rows => rows
      | Raise _ => []
      end
  | _ => []
  end.

Definition collected (post : Z → response) (qc : str) (n : nat) : list item :=
  flat_map (fun i => page_items qc (post (Z.of_nat i))) (seq 1 n).

(** The [total] a decodable page reports (0 when the key is missing). *)
Definition reported_total (resp : response) : option json :=
  match resp with
  | Http status_code (Json (JDict d)) =>
      if status_code =? 200
      then Some (dict_get_default d (lit "total") (JInt 0))
      else None
  | _ => None
  end.

(** The page size of line 45 and the number of rows a decodable page
    holds. *)
Definition page_size : nat := 500.

Definition row_count (resp : response) : option nat :=
  match resp with
  | Http _ (Json (JDict d)) =>
      match d !! lit "data" with
      | Some (JList rows) => Some (length rows)
      | _ => None
      end
  | _ => None
  end.

(** A reported total that no count from [T] upwards falls short of. *)
Definition total_at_most (T : Z) (total : json) : Prop :=
  ∀ n, T ≤ n → int_ge n total ≠ Return false.

(** A page of [n] rows without fields, reporting [total]. *)
Definition page_of (n : nat) (total : json) : response :=
  Http 200 (Json (JDict (<[lit "total" := total]>
                         (<[lit "data" := JList (replicate n (JDict ∅))]> ∅)))).

(** A server whose every page holds one row and reports one more row than
    the client can have by then. *)
Definition endless (p : Z) : response := page_of 1 (JInt (p + 1)).

(** What the specification hands the orchestrator for one call sign: no run
    for an empty code, else the outcome of the run. *)
Definition run_gives (fetch : str → option str → option (pyresult (list entry)))
    (code : str) (o : option RunOutcome) : Prop :=
  match o with
  | None => code = []
  | Some ro => code ≠ [] ∧ fetch code (Some code) = Some (Return (encode ro))
  end.

Definition records_of (o : option RunOutcome) : list item :=
  match o with
  | Some (Ok records) => records
  | _ => []
  end.

Definition failure_of (label code : str) (o : option RunOutcome) : list str :=
  match o with
  | Some (Failed reason _) => [label ++ code ++ msg_query_failed ++ reason]
  | _ => []
  end.

(** Sample rows and servers for the examples. *)
Definition row_of (k : string) (v : json) : gmap str json := {[ lit k := v ]}.

Definition sample_ui : ui :=
  {| status_text := []; loading_visible := true; btn_query_disabled := true;
     all_results := []; last_call := NoCall |}.

(** South answers one row; north fails to connect with the given text. *)
Definition south_ok_north_down (reason : str) (code : str) (p : Z) : response :=
  if bool_decide (code = lit "S") then page_of 1 (JInt 1) else ConnError reason.

(** ** The requests and progress reports of [fetch_data] (lines 47-73, 109-110) *)

(** The form fields of one request (lines 52-65), in the order of the dict
    literal. *)
Definition payload (current_page page_size : Z) (vsl_reg_no : str)
    : list (str * str) :=
  [(lit "tab0.currentPage", str_of_int current_page);
   (lit "tab0.rowNum", str_of_int page_size);
   (lit "tab0.vslRegNo", vsl_reg_no);
   (lit "tab0.choice", lit "1");
   (lit "tab0.soNoStart", lit "0000");
   (lit "tab0.soNoEnd", lit "Z");
   (lit "tab0.declCustCd", lit "BC");
   (lit "tab0.mawbStart", []);
   (lit "tab0.mawbEnd", []);
   (lit "tab0.hawb", []);
   (lit "tab0.storWareCd", []);
   (lit "tab0.declNo", [])].

(** The progress text of line 50: 正在讀取第 N 頁資料... ("reading page
    N"). *)
Definition msg_reading (current_page : Z) : str :=
  [27491; 22312; 35712; 21462; 31532; 32]%N ++ str_of_int current_page
  ++ [32; 38913; 36039; 26009; 46; 46; 46]%N.

(** What the loop does besides computing its result: a call of the progress
    callback, a [session.post] with its form fields, the pause of line 110. *)
Inductive event :=
| Progress (msg : str)
| Post (data : list (str * str))
| Sleep.

(** The progress callback is code of the caller: called with a message it
    returns, or raises an exception of its own ([E] is the type of what it
    can raise).  [None] stands for a call without callback. *)
Definition callback (E : Type) : Type := option (str → option E).

(** How a run ends: with the list it returns, with an exception raised in the
    body of the loop, or with an exception of the callback, which is called
    outside every [try] (lines 49-50). *)
Inductive run_end (E : Type) :=
| Returned (l : list entry)
| Raised (e : exn)
| CallbackRaised (x : E).
Arguments Returned {E} l.
Arguments Raised {E} e.
Arguments CallbackRaised {E} x.

Definition end_of {E : Type} (r : pyresult (list entry)) : run_end E :=
  match r with
  | Return l => Returned l
  | Raise e => Raised e
  end.

(** Lines 49-50, [if status_callback: status_callback(...)]: what the call
    raises, if anything, and the event it leaves. *)
Definition report {E : Type} (status_callback : callback E) (msg : str)
    : option E * list event :=
  match status_callback with
  | Some f => (f msg, [Progress msg])
  | None => (None, [])
  end.

(** The loop of [fetch_data] with its callback, its requests and its pauses:
    the events of each pass are appended to [log]. *)
Fixpoint fetch_loop_log {E : Type} (fuel : nat) (post : Z → response)
    (status_callback : callback E) (vsl_reg_no query_code : str)
    (all_results : list item) (current_page : Z) (log : list event)
    : option (run_end E * list event) :=
  match fuel with
  | O => None
  | S fuel' =>
      let '(raised, reported) := report status_callback (msg_reading current_page) in
      match raised with
      | Some x => Some (CallbackRaised x, log ++ reported)
      | None =>
          let log :=
            log ++ reported
            ++ [Post (payload current_page (Z.of_nat page_size) vsl_reg_no)] in
          match page_step query_code all_results (post current_page) with
          | NextPage all_results' =>
              fetch_loop_log fuel' post status_callback vsl_reg_no query_code
                all_results' (current_page + 1) (log ++ [Sleep])
          | Break all_results' => Some (Returned (ItemDict <$> all_results'), log)
          | Leave r => Some (end_of r, log)
          end
      end
  end.

Definition fetch_data_log {E : Type} (fuel : nat) (post : Z → response)
    (vsl_reg_no : str) (status_callback : callback E) (query_code : option str)
    : option (run_end E * list event) :=
  let query_code := match query_code with
                    | None => vsl_reg_no
                    | Some c => c
                    end in
  fetch_loop_log fuel post status_callback vsl_reg_no query_code [] 1 [].

(** The events of a pass that gets to its request, and of [k] passes from
    page [from] on that each go on to the next page. *)
Definition pass_events {E : Type} (status_callback : callback E)
    (vsl_reg_no : str) (p : Z) : list event :=
  match status_callback with
  | Some _ => [Progress (msg_reading p)]
  | None => []
  end
  ++ [Post (payload p (Z.of_nat page_size) vsl_reg_no)].

Fixpoint full_passes {E : Type} (status_callback : callback E)
    (vsl_reg_no : str) (from : Z) (k : nat) : list event :=
  match k with
  | O => []
  | S k' =>
      pass_events status_callback vsl_reg_no from ++ [Sleep]
      ++ full_passes status_callback vsl_reg_no (from + 1) k'
  end.

(** The events of the last pass, page [p]: the report alone when the callback
    raised, else the report and the request. *)
Definition last_pass_events {E : Type} (status_callback : callback E)
    (vsl_reg_no : str) (p : Z) (r : run_end E) : list event :=
  match r with
  | CallbackRaised _ => [Progress (msg_reading p)]
  | _ => pass_events status_callback vsl_reg_no p
  end.

(** ** The display ([show_results], lines 226-315) *)

(** A control of the result list: a line of text, or a card with the five
    values its texts are built from ([so_no], [qty], [query_code],
    [vsl_name], [date]; a card has no text for [decl_no]). *)
Inductive control :=
| Text (value : str)
| Card (so_no : json) (qty : str) (query_code : str) (vsl_name : json) (date : str).

(** Texts of lines 230, 238 and 244: 查無資料 ("no data"), 錯誤： ("error:")
    and 伺服器回應片段： ("piece of the server's answer:"). *)
Definition msg_no_data : str := [26597; 28961; 36039; 26009]%N.
Definition msg_error : str := [37679; 35492; 65306]%N.
Definition msg_raw : str :=
  [20282; 26381; 22120; 22238; 25033; 29255; 27573; 65306]%N.

(** The result list after [show_results]: all controls built, or the
    controls appended before [item['so_no']] raised [KeyError] on a dict
    without that key. *)
Inductive shown :=
| Controls (l : list control)
| KeyErrorAfter (l : list control).

(** The card of lines 256-312 for one item. *)
Definition card_of (it : item) : control :=
  Card (so_no it) (qty it) (query_code it) (vsl_name it) (date it).

(** The [for] loop of lines 255-313. *)
Fixpoint show_cards (data : list entry) (controls : list control) : shown :=
  match data with
  | [] => Controls controls
  | ItemDict it :: data' => show_cards data' (controls ++ [card_of it])
  | ErrorDict _ _ :: _ => KeyErrorAfter controls
  end.

Definition show_results (data : list entry) : shown :=
  match data with
  | [] => Controls [Text msg_no_data]
  | ErrorDict err raw :: _ =>
      Controls (Text (msg_error ++ err)
                :: match raw with
                   | Some (c :: raw_snippet) => [Text (msg_raw ++ c :: raw_snippet)]
                   | Some [] | None => []
                   end)
  | ItemDict _ :: _ => show_cards data []
  end.

(** ** The filter box ([apply_filter], lines 318-334) *)

(** [s.strip()]: white space is removed at both ends. *)
Fixpoint lstrip (s : str) : str :=
  match s with
  | c :: s' => if unicode_isspace c then lstrip s' else s
  | [] => []
  end.

Definition strip (s : str) : str := reverse (lstrip (reverse (lstrip s))).

(** [a in b] for two strings: [a] occurs in [b] as a substring. *)
Fixpoint starts_with (a b : str) : bool :=
  match a, b with
  | [], _ => true
  | x :: a', y :: b' => (x =? y)%N && starts_with a' b'
  | _ :: _, [] => false
  end.

Fixpoint occurs_in (a b : str) : bool :=
  starts_with a b
  || match b with
     | [] => false
     | _ :: b' => occurs_in a b'
     end.

(** [item.get("so_no", "")] on an element of the result list. *)
Definition so_no_or_empty (e : entry) : json :=
  match e with
  | ItemDict it => so_no it
  | ErrorDict _ _ => JStr []
  end.

Section Filter.

(** The built-ins [str.lower] and [str] are taken as they come: [lower]
    maps a string to a string, [str_of] renders a value or raises. *)
Variable lower : str → str.
Variable str_of : json → pyresult str.

(** The condition of the comprehension (line 332). *)
Definition so_matches (keyword : str) (e : entry) : pyresult bool :=
  text ← str_of (so_no_or_empty e);
  Return (occurs_in (lower keyword) (lower text)).

(** The comprehension of lines 329-333. *)
Fixpoint filter_so (keyword : str) (l : list entry) : pyresult (list entry) :=
  match l with
  | [] => Return []
  | e :: l' =>
      keep ← so_matches keyword e;
      rest ← filter_so keyword l';
      Return (if keep : bool then e :: rest else rest)
  end.

(** [apply_filter]: [value] is the content of the filter box. *)
Definition apply_filter (value : option str) (all_results : list entry)
    : pyresult shown :=
  let keyword := strip (default [] value) in
  match all_results with
  | [] => Return (show_results [])
  | _ :: _ =>
      match keyword with
      | [] => Return (show_results all_results)
      | _ :: _ =>
          filtered ← filter_so keyword all_results;
          Return (show_results filtered)
      end
  end.

End Filter.

(** ** The click handler ([start_query], lines 339-461) and the remembered
       call signs (lines 169-177, 350-356) *)

(** Keys of the client storage, and the texts of lines 346 and 361:
    請先輸入南掛或北掛掛號 ("enter the south or north call sign first") and
    開始查詢... ("starting the query"). *)
Definition SOUTH_KEY : str := lit "last_south_code".
Definition NORTH_KEY : str := lit "last_north_code".
Definition msg_enter_code : str :=
  [35531; 20808; 36664; 20837; 21335; 25499; 25110; 21271; 25499; 25499; 34399]%N.
Definition msg_starting : str := [38283; 22987; 26597; 35426; 46; 46; 46]%N.

(** Lines 351-356: the two [client_storage.set] calls inside one [try];
    [south_ok] and [north_ok] tell whether each call succeeds.  A failure of
    the first skips the second, and neither failure goes further. *)
Definition remember (south_ok north_ok : bool) (south_code north_code : str)
    (storage : gmap str str) : gmap str str :=
  if south_ok then
    let storage := <[SOUTH_KEY := south_code]> storage in
    if north_ok then <[NORTH_KEY := north_code]> storage else storage
  else storage.

(** Lines 176-177: [page.client_storage.get(KEY) or ""]. *)
Definition last_code (storage : gmap str str) (key : str) : str :=
  default [] (storage !! key).

(** The state a click leaves behind, and the call signs the background
    [task] is started with ([None] when the click is refused). *)
Record started := {
  started_ui : ui;
  started_storage : gmap str str;
  started_job : option (str * str)
}.

Definition start_query (south_ok north_ok : bool) (txt_south txt_north : option str)
    (storage : gmap str str) (u : ui) : started :=
  let south_code := strip (default [] txt_south) in
  let north_code := strip (default [] txt_north) in
  match south_code, north_code with
  | [], [] =>
      {| started_ui :=
           {| status_text := msg_enter_code;
              loading_visible := loading_visible u;
              btn_query_disabled := btn_query_disabled u;
              all_results := all_results u;
              last_call := last_call u |};
         started_storage := storage;
         started_job := None |}
  | _, _ =>
      {| started_ui :=
           {| status_text := msg_starting;
              loading_visible := true;
              btn_query_disabled := true;
              all_results := all_results u;
              last_call := NoCall |};
         started_storage := remember south_ok north_ok south_code north_code storage;
         started_job := Some (south_code, north_code) |}
  end.

(** A click followed to the end of the background thread it starts. *)
Definition run_query (fetch : str → option str → option (pyresult (list entry)))
    (south_ok north_ok : bool) (txt_south txt_north : option str)
    (storage : gmap str str) (u : ui) : option ui :=
  let st := start_query south_ok north_ok txt_south txt_north storage u in
  match started_job st with
  | None => Some (started_ui st)
  | Some (south_code, north_code) => task fetch south_code north_code (started_ui st)
  end.

(** ** Servers for the further properties *)

(** A page holding [rows] and reporting [total]. *)
Definition page_with (rows : list (gmap str json)) (total : json) : response :=
  Http 200 (Json (JDict (<[lit "total" := total]>
                         (<[lit "data" := JList (JDict <$> rows)]> ∅)))).

(** A server that holds [rows], serves them [k] to a page and reports their
    number as the total on every page. *)
Definition honest (k : nat) (rows : list (gmap str json)) (p : Z) : response :=
  page_with (take k (drop ((Z.to_nat p - 1) * k) rows)) (JInt (Z.of_nat (length rows))).

(** A body the loop can work on without an exception: a JSON object whose
    [data] is falsy, or a list of objects next to a numeric [total]. *)
Definition is_number (v : json) : bool :=
  match v with
  | JInt _ | JBool _ | JFloat _ => true
  | _ => false
  end.

Definition is_dict_list (v : json) : bool :=
  match v with
  | JList l => forallb is_dict l
  | _ => false
  end.

Definition well_shaped (resp : response) : bool :=
  match resp with
  | Http status_code (Json json_data) =>
      negb (status_code =? 200)
      || match json_data with
         | JDict d =>
             let total_count := dict_get_default d (lit "total") (JInt 0) in
             let raw_data := dict_get_default d (lit "data") (JList []) in
             negb (truthy raw_data)
             || (is_dict_list raw_data && is_number total_count)
         | _ => false
         end
  | _ => true
  end.

Definition is_item (e : entry) : bool :=
  match e with
  | ItemDict _ => true
  | ErrorDict _ _ => false
  end.

(** A text made of white space only (or no text at all). *)
Definition blank (txt : option str) : bool :=
  forallb unicode_isspace (default [] txt).

(** The state the handler of lines 448-459 leaves. *)
Definition after_exception (e : exn) (u : ui) : ui :=
  {| status_text := status_unexpected;
     loading_visible := false;
     btn_query_disabled := false;
     all_results := all_results u;
     last_call := ShowException e |}.

(** * Properties *)

(** ** Strings of integers *)

Lemma uint_digits_all_digits u : forallb is_digit (uint_digits u) = true.
Proof. induction u; simpl; auto. Qed.

Lemma uint_digits_nonempty u : u ≠ Nil → Nat.eqb (length (uint_digits u)) 0 = false.
Proof. destruct u; simpl; congruence. Qed.

Lemma nat_string_uint u : u ≠ Nil → nat_string (uint_digits u) = true.
Proof.
  intros Hu. unfold nat_string.
  rewrite uint_digits_nonempty, uint_digits_all_digits; auto.
Qed.

Lemma nat_string_str_of_int z : 0 ≤ z → nat_string (str_of_int z) = true.
Proof.
  destruct z as [|p|p]; intros Hz; [reflexivity | | lia].
  apply nat_string_uint, DecimalPos.Unsigned.to_uint_nonnil.
Qed.

Lemma int_string_of_nat_string s : nat_string s = true → int_string s = true.
Proof.
  destruct s as [|c s]; [discriminate|].
  intros H. unfold int_string.
  destruct (N.eqb_spec c 45) as [->|_]; [discriminate | exact H].
Qed.

Lemma int_string_str_of_int z : int_string (str_of_int z) = true.
Proof.
  destruct z as [|p|p].
  - reflexivity.
  - apply int_string_of_nat_string, nat_string_str_of_int. lia.
  - apply (nat_string_uint _ (DecimalPos.Unsigned.to_uint_nonnil p)).
Qed.

(** ** The normalizer *)

(** The loop body on a dict, field by field. *)
Lemma row_item_dict (qc : option str) (row : gmap str json) :
  row_item qc (JDict row) = Return (item_of_row qc row).
Proof. reflexivity. Qed.

(** The loop appends one item per row to what it already holds. *)
Lemma parse_rows_dicts (qc : option str) (rows : list (gmap str json)) results :
  parse_rows qc (JDict <$> rows) results =
  Return (results ++ (item_of_row qc <$> rows)).
Proof.
  revert results. induction rows as [|row rows IH]; intros results.
  - simpl. by rewrite app_nil_r.
  - cbn [fmap list_fmap parse_rows]. rewrite row_item_dict.
    change (parse_rows qc (JDict <$> rows) (results ++ [item_of_row qc row]) =
            Return (results ++ item_of_row qc row :: (item_of_row qc <$> rows))).
    rewrite IH. by rewrite <- app_assoc.
Qed.

Lemma parse_json_list_dicts (qc : option str) (rows : list (gmap str json)) :
  _parse_json_list (JList (JDict <$> rows)) qc = Return (item_of_row qc <$> rows).
Proof. unfold _parse_json_list. simpl. apply parse_rows_dicts. Qed.

(** A list of dicts is the image of a list of maps. *)
Lemma all_dicts (raw_list : list json) :
  forallb is_dict raw_list = true → ∃ rows, raw_list = JDict <$> rows.
Proof.
  induction raw_list as [|v l IH]; simpl.
  - by exists [].
  - intros [Hv Hl]%andb_true_iff. destruct (IH Hl) as [rows ->].
    destruct v; try discriminate. by exists (d :: rows).
Qed.

(** The loop raises only on a row that is not a dict. *)
Lemma parse_rows_raises (qc : option str) rows results e :
  parse_rows qc rows results = Raise e → forallb is_dict rows = false.
Proof.
  revert results. induction rows as [|row rows IH]; intros results; simpl.
  - discriminate.
  - intros H. destruct row; try reflexivity.
    cbn [parse_rows] in H. rewrite row_item_dict in H.
    apply (IH _ H).
Qed.

Lemma nat_string_negative u : nat_string (45%N :: u) = false.
Proof. unfold nat_string. simpl. reflexivity. Qed.

Lemma nat_string_str_of_int_sign z : nat_string (str_of_int z) = (0 <=? z).
Proof.
  destruct (Z.leb_spec 0 z) as [Hz|Hz].
  - by apply nat_string_str_of_int.
  - destruct z; try lia. apply nat_string_negative.
Qed.

Lemma str_int_spec z :
  str_int z = if 10 ^ max_str_digits <=? Z.abs z then Raise ValueError
              else Return (str_of_int z).
Proof. reflexivity. Qed.

Lemma qty_str_of_spec v :
  match v with
  | JNull => qty_str_of v = lit "0"
  | _ => match py_int v with
         | Return z =>
             qty_str_of v = if 10 ^ max_str_digits <=? Z.abs z then lit "0"
                            else str_of_int z
         | Raise _ => qty_str_of v = lit "0"
         end
  end.
Proof.
  assert (∀ z, try_except (str_int z) (lit "0")
               = if 10 ^ max_str_digits <=? Z.abs z then lit "0" else str_of_int z)
    as Hstr.
  { intros z. rewrite str_int_spec. by destruct (_ <=? _). }
  unfold qty_str_of.
  destruct v as [|b|z|f|s|l|d]; try reflexivity; cbn [py_int mbind pyresult_bind].
  - apply Hstr.
  - apply Hstr.
  - destruct f; cbn [int_of_float]; try reflexivity. apply Hstr.
  - destruct (int_of_str s); [apply Hstr | reflexivity].
Qed.

Lemma qty_str_of_int_string v : int_string (qty_str_of v) = true.
Proof.
  pose proof (qty_str_of_spec v) as Hv.
  destruct v; try (by rewrite Hv);
    revert Hv; destruct (py_int _) as [n|e]; intros ->; try reflexivity;
    (destruct (_ <=? _); [reflexivity | apply int_string_str_of_int]).
Qed.

(** The values the specification lists for the raw quantity: absent, null,
    0, "12", "abc" and -5. *)
Example quantity_samples :
  qty <$> [item_of_row None ∅;
           item_of_row None (row_of "packQty1" JNull);
           item_of_row None (row_of "packQty1" (JInt 0));
           item_of_row None (row_of "packQty1" (JStr (lit "12")));
           item_of_row None (row_of "packQty1" (JStr (lit "abc")));
           item_of_row None (row_of "packQty1" (JInt (-5)))]
  = [lit "0"; lit "0"; lit "0"; lit "12"; lit "0"; lit "-5"].
Proof. vm_compute. reflexivity. Qed.

(** A string of 4301 digits is rejected by [int]; one of 4300 is kept. *)
Example quantity_digit_limit :
  qty_str_of (JStr (replicate 4301 57%N)) = lit "0"
  ∧ qty_str_of (JStr (replicate 4300 57%N)) = replicate 4300 57%N.
Proof. split; vm_compute; reflexivity. Qed.

(** C4, as stated, fails: a raw quantity of -5 is rendered as "-5", which is
    not the text of a non-negative integer. *)
Lemma quantity_negative_counterexample :
  ∃ it, row_item None (JDict (row_of "packQty1" (JInt (-5)))) = Return it
        ∧ qty it = lit "-5" ∧ nat_string (qty it) = false.
Proof. eexists. split; [reflexivity|]. split; vm_compute; reflexivity. Qed.

(** C4, amended: for every row the quantity is the decimal text of an
    integer; it is "0" when the raw quantity is absent or null or when
    [str(int(v))] raises ([int] rejects the value, or the integer has more
    digits than the interpreter converts), and [str(int(v))] otherwise, which
    is the text of a non-negative integer exactly when the coerced value is not
    negative. *)
Theorem quantity_is_integer_string (qc : option str) (row : gmap str json) :
  ∃ it, row_item qc (JDict row) = Return it
        ∧ int_string (qty it) = true
        ∧ match row !! lit "packQty1" with
          | None | Some JNull => qty it = lit "0"
          | Some v =>
              match py_int v with
              | Return z =>
                  if 10 ^ max_str_digits <=? Z.abs z then qty it = lit "0"
                  else qty it = str_of_int z ∧ nat_string (qty it) = (0 <=? z)
              | Raise _ => qty it = lit "0"
              end
          end.
Proof.
  exists (item_of_row qc row). split; [apply row_item_dict|].
  split; [apply qty_str_of_int_string|].
  unfold item_of_row, dict_get; cbn [qty].
  destruct (row !! lit "packQty1") as [v|]; [|reflexivity].
  cbn [default from_option id]. pose proof (qty_str_of_spec v) as Hv.
  destruct v; try exact Hv;
    revert Hv; destruct (py_int _) as [n|e]; intros Hv; try exact Hv;
    (destruct (_ <=? _); [exact Hv|];
     split; [exact Hv | rewrite Hv; apply nat_string_str_of_int_sign]).
Qed.

(** C7, as stated, fails: an empty order number is passed through, not
    replaced by the placeholder (and so is null). *)
Lemma order_number_empty_counterexample :
  ∃ it, row_item None (JDict (row_of "soNo" (JStr []))) = Return it
        ∧ so_no it = JStr [] ∧ so_no it ≠ JStr no_so.
Proof. eexists. split; [reflexivity|]. split; [reflexivity|]. vm_compute. discriminate. Qed.

Example order_number_null :
  so_no (item_of_row None (row_of "soNo" JNull)) = JNull.
Proof. reflexivity. Qed.

(** C7, amended: the order number is the raw field whenever the key is
    present, whatever its value (null and the empty string included), and the
    placeholder exactly when the key is absent. *)
Theorem order_number_default_when_absent (qc : option str) (row : gmap str json) :
  ∃ it, row_item qc (JDict row) = Return it
        ∧ so_no it = match row !! lit "soNo" with
                     | Some v => v
                     | None => JStr no_so
                     end.
Proof.
  exists (item_of_row qc row). split; [apply row_item_dict|].
  unfold item_of_row, dict_get_default; cbn [so_no].
  by destruct (row !! lit "soNo").
Qed.

(** ** The warehousing time *)

Lemma fmt_date_of_short v : short_or_not_str v = true → fmt_date_of v = no_date.
Proof.
  destruct v; try reflexivity.
  unfold short_or_not_str, fmt_date_of. intros Hs%Nat.ltb_lt.
  destruct (Nat.leb_spec 12 (length s)); [lia|]. by rewrite andb_false_r.
Qed.

Lemma fmt_date_of_long s : (12 ≤ length s)%nat → fmt_date_of (JStr s) = format_date s.
Proof.
  intros Hs. unfold fmt_date_of.
  destruct (Nat.leb_spec 12 (length s)); [|lia].
  destruct s; [simpl in Hs; lia | reflexivity].
Qed.

Lemma format_date_positional y1 y2 y3 y4 m1 m2 d1 d2 sep h1 h2 n1 n2 rest :
  format_date ([y1; y2; y3; y4; m1; m2; d1; d2; sep; h1; h2; n1; n2] ++ rest)
  = [y1; y2; y3; y4; 47; m1; m2; 47; d1; d2; 32; h1; h2; 58; n1; n2]%N.
Proof. reflexivity. Qed.

Lemma well_formed_format_date s :
  (12 ≤ length s)%nat →
  well_formed_timestamp (format_date s) = positional_digits s.
Proof.
  intros Hs.
  do 12 (destruct s as [|? s]; [simpl in Hs; lia|]). clear Hs.
  destruct s as [|? s].
  - reflexivity.
  - unfold positional_digits, format_date, well_formed_timestamp, slice.
    cbn -[is_digit]. by rewrite !andb_true_r.
Qed.

(** C5, as stated, fails on its own example: without a separator at offset
    8 the hour is read from offsets 9-10 and the minute from 11-12, so
    "20251216153545" gives "2025/12/16 53:54". *)
Lemma timestamp_without_separator_counterexample :
  ∃ it, row_item None (JDict (row_of "inWareDate1" (JStr (lit "20251216153545"))))
        = Return it
        ∧ date it = lit "2025/12/16 53:54"
        ∧ date it ≠ lit "2025/12/16 15:35".
Proof.
  eexists. split; [reflexivity|]. split; [reflexivity|]. vm_compute. discriminate.
Qed.

(** C5, amended: a raw timestamp that is absent, not a string, or a string
    of fewer than twelve characters gives the placeholder; a string of eight
    characters, one separator character and at least four more gives the
    characters at offsets 0-3, 4-5, 6-7, 9-10 and 11-12 joined as
    [YYYY/MM/DD HH:MM], so "20251216 153545" gives "2025/12/16 15:35". *)
Theorem warehoused_at_short_or_positional (qc : option str) (row : gmap str json) :
  ∃ it, row_item qc (JDict row) = Return it
        ∧ (short_or_not_str (dict_get row (lit "inWareDate1")) = true →
           date it = no_date)
        ∧ (∀ y1 y2 y3 y4 m1 m2 d1 d2 sep h1 h2 n1 n2 rest,
             dict_get row (lit "inWareDate1")
             = JStr ([y1; y2; y3; y4; m1; m2; d1; d2; sep; h1; h2; n1; n2] ++ rest) →
             date it
             = [y1; y2; y3; y4; 47; m1; m2; 47; d1; d2; 32; h1; h2; 58; n1; n2]%N).
Proof.
  exists (item_of_row qc row). split; [apply row_item_dict|].
  unfold item_of_row; cbn [date]. split.
  - apply fmt_date_of_short.
  - intros * ->. rewrite fmt_date_of_long.
    + apply format_date_positional.
    + rewrite length_app. simpl. lia.
Qed.

Lemma warehoused_at_short_or_positional_witness :
  (∃ it, row_item None (JDict (row_of "inWareDate1" (JStr (lit "20251216"))))
         = Return it ∧ date it = no_date)
  ∧ (∃ it, row_item None (JDict (row_of "inWareDate1" (JStr (lit "20251216 153545"))))
           = Return it ∧ date it = lit "2025/12/16 15:35").
Proof.
  split.
  - destruct (warehoused_at_short_or_positional None
                (row_of "inWareDate1" (JStr (lit "20251216"))))
      as (it & Hit & Hshort & _).
    exists it. split; [exact Hit | apply Hshort; reflexivity].
  - destruct (warehoused_at_short_or_positional None
                (row_of "inWareDate1" (JStr (lit "20251216 153545"))))
      as (it & Hit & _ & Hpos).
    exists it. split; [exact Hit|].
    apply (Hpos 50 48 50 53 49 50 49 54 32 49 53 51 53 [52; 53])%N.
    reflexivity.
Defined.

(** C6, as stated, fails: a raw string of exactly twelve characters has a
    one-character minute, so the field is neither well formed nor the
    placeholder. *)
Lemma timestamp_twelve_chars_counterexample :
  ∃ it, row_item None (JDict (row_of "inWareDate1" (JStr (lit "20251216 153"))))
        = Return it
        ∧ date it = lit "2025/12/16 15:3"
        ∧ well_formed_timestamp (date it) = false
        ∧ date it ≠ no_date.
Proof.
  eexists. split; [reflexivity|]. split; [reflexivity|]. split; [reflexivity|].
  vm_compute. discriminate.
Qed.

(** C6, amended: the field is either the placeholder or the positional
    rendering of a raw string of at least twelve characters, and that
    rendering has the shape [YYYY/MM/DD HH:MM] exactly when the raw string has
    at least thirteen characters with digits at offsets 0-7 and 9-12. *)
Theorem warehoused_at_placeholder_or_positional (qc : option str)
    (row : gmap str json) :
  ∃ it, row_item qc (JDict row) = Return it
        ∧ (date it = no_date
           ∨ ∃ s, row !! lit "inWareDate1" = Some (JStr s)
                  ∧ (12 ≤ length s)%nat
                  ∧ date it = format_date s
                  ∧ well_formed_timestamp (date it) = positional_digits s).
Proof.
  exists (item_of_row qc row). split; [apply row_item_dict|].
  unfold item_of_row, dict_get; cbn [date].
  destruct (row !! lit "inWareDate1") as [v|]; [|by left].
  cbn [default from_option id].
  destruct (short_or_not_str v) eqn:Hv.
  - left. by apply fmt_date_of_short.
  - right. destruct v; try discriminate.
    simpl in Hv. apply Nat.ltb_ge in Hv.
    exists s. rewrite fmt_date_of_long by done.
    repeat split; [done|]. by apply well_formed_format_date.
Qed.

(** ** The normalizer as a whole *)

Example non_dict_row_raises :
  _parse_json_list (JList [JDict ∅; JInt 1]) None = Raise AttributeError.
Proof. reflexivity. Qed.

(** What each field of the item of a dict row can be. *)
Lemma item_of_row_fields (qc : option str) (row : gmap str json) :
  so_no (item_of_row qc row) = default (JStr no_so) (row !! lit "soNo")
  ∧ decl_no (item_of_row qc row) = default (JStr []) (row !! lit "declNo")
  ∧ vsl_name (item_of_row qc row) = default (JStr []) (row !! lit "vslName")
  ∧ (qty (item_of_row qc row) = lit "0"
     ∨ ∃ z, py_int (dict_get row (lit "packQty1")) = Return z
            ∧ qty (item_of_row qc row) = str_of_int z)
  ∧ (date (item_of_row qc row) = no_date
     ∨ ∃ s, row !! lit "inWareDate1" = Some (JStr s)
            ∧ (12 ≤ length s)%nat
            ∧ date (item_of_row qc row) = format_date s)
  ∧ query_code (item_of_row qc row) = or_empty qc.
Proof.
  unfold item_of_row; cbn [so_no decl_no vsl_name qty date query_code].
  repeat split.
  - pose proof (qty_str_of_spec (dict_get row (lit "packQty1"))) as Hq.
    destruct (dict_get row (lit "packQty1")); try (by left);
      revert Hq; destruct (py_int _) as [n|e]; intros Hq; try (by left);
      (destruct (_ <=? _); [by left | right; by exists n]).
  - unfold dict_get. destruct (row !! lit "inWareDate1") as [v|]; [|by left].
    cbn [default from_option id].
    destruct (short_or_not_str v) eqn:Hv.
    + left. by apply fmt_date_of_short.
    + right. destruct v; try discriminate.
      simpl in Hv. apply Nat.ltb_ge in Hv.
      exists s. by rewrite fmt_date_of_long.
Qed.




(** C10: there is one function of the query code and a single row such that
    the normalizer returns its image of the row list, in order: the i-th
    item is that function of the i-th row, and the lengths agree. *)
Theorem normalizer_is_per_row_map :
  ∃ norm : option str → gmap str json → item,
    ∀ (qc : option str) (rows : list (gmap str json)),
      _parse_json_list (JList (JDict <$> rows)) qc = Return (norm qc <$> rows)
      ∧ (∀ row, row_item qc (JDict row) = Return (norm qc row))
      ∧ length (norm qc <$> rows) = length rows
      ∧ ∀ i : nat, (norm qc <$> rows) !! i = norm qc <$> rows !! i.
Proof.
  exists item_of_row. intros qc rows. split; [apply parse_json_list_dicts|].
  split; [intros row; apply row_item_dict|].
  split; [apply length_fmap | intros i; apply list_lookup_fmap].
Qed.

(** ** The pagination engine *)

Lemma parse_rows_length (qc : option str) rows results out :
  parse_rows qc rows results = Return out →
  length out = (length results + length rows)%nat.
Proof.
  revert results. induction rows as [|row rows IH]; intros results; simpl.
  - intros [= <-]. lia.
  - destruct (row_item qc row) as [it|e]; simpl; [|discriminate].
    intros H%IH. rewrite length_app in H. simpl in H. lia.
Qed.

(** A truthy [data] that the normalizer accepts has at least one row. *)
Lemma parse_json_list_nonempty (qc : option str) raw_data rows :
  truthy raw_data = true →
  _parse_json_list raw_data qc = Return rows →
  rows ≠ [].
Proof.
  unfold _parse_json_list.
  destruct raw_data as [| | | |s|l|d]; simpl; try discriminate.
  - destruct s; [discriminate | intros _; simpl; discriminate].
  - destruct l; [discriminate|]. intros _ H%parse_rows_length.
    intros ->. simpl in H. lia.
  - destruct (map_to_list d) as [|[k v] m] eqn:Hd.
    + apply map_to_list_empty_iff in Hd as ->. rewrite map_size_empty. discriminate.
    + intros _; simpl; discriminate.
Qed.

(** The only way to go on to the next page. *)
Lemma page_step_next qc acc resp acc' :
  page_step qc acc resp = NextPage acc' →
  ∃ total rows,
    reported_total resp = Some total
    ∧ page_items qc resp = rows
    ∧ rows ≠ []
    ∧ acc' = acc ++ rows
    ∧ int_ge (Z.of_nat (length acc')) total = Return false.
Proof.
  unfold page_step, reported_total, page_items, fail_or_break.
  destruct resp as [e|status_code b].
  { destruct acc; discriminate. }
  destruct (status_code =? 200); simpl.
  2:{ destruct acc; discriminate. }
  destruct b as [e text|json_data].
  { destruct acc; discriminate. }
  destruct json_data; simpl; try discriminate.
  destruct (truthy (dict_get_default d (lit "data") (JList []))) eqn:Hdata;
    simpl; [|discriminate].
  destruct (_parse_json_list _ _) as [rows|e] eqn:Hrows; simpl; [|discriminate].
  destruct (int_ge _ _) as [[|]|e] eqn:Hge; simpl; try discriminate.
  intros [= <-]. eexists _, rows. repeat split; try done.
  by eapply parse_json_list_nonempty.
Qed.

(** A rejected response ends the run: with the error dict when nothing has
    been collected, with the collected items otherwise. *)
Lemma page_step_failure qc acc resp err :
  failure_report resp = Some err →
  page_step qc acc resp = fail_or_break acc err.
Proof.
  unfold failure_report, page_step.
  destruct resp as [e|status_code b].
  - by intros [= <-].
  - destruct (negb (status_code =? 200)); [by intros [= <-]|].
    destruct b; [by intros [= <-] | discriminate].
Qed.

Lemma transport_failed_report resp :
  transport_failed resp = true → ∃ reason raw, failure_report resp = Some (ErrorDict reason raw).
Proof.
  unfold transport_failed, failure_report.
  destruct resp as [e|status_code b]; [by eexists _, _|].
  destruct (Z.eqb_spec status_code 200) as [->|_]; simpl; [|by eexists _, _].
  destruct b; [by eexists _, _ | discriminate].
Qed.

(** The state at the top of a pass: pages count from 1, and the list is
    empty on the first page only. *)
Lemma reaches_inv post qc p acc :
  reaches post qc p acc → 1 ≤ p ∧ (p = 1 ↔ acc = []).
Proof.
  induction 1 as [|p acc acc' _ [IHp IHacc] Hstep].
  - done.
  - apply page_step_next in Hstep as (total & rows & _ & _ & Hrows & -> & _).
    split; [lia|]. split; [lia|].
    intros [-> ->]%app_eq_nil. done.
Qed.

(** What the loop holds at page [p] is the records of pages 1 to [p - 1],
    in page order. *)
Lemma reaches_collected post qc p acc :
  reaches post qc p acc → acc = collected post qc (Z.to_nat (p - 1)).
Proof.
  induction 1 as [|p acc acc' Hreach IH Hstep]; [done|].
  apply reaches_inv in Hreach as [Hp _].
  apply page_step_next in Hstep as (total & rows & _ & Hitems & _ & -> & _).
  replace (Z.to_nat (p + 1 - 1)) with (S (Z.to_nat (p - 1))) by lia.
  unfold collected in *. rewrite seq_S, flat_map_app, <- IH.
  cbn [flat_map]. rewrite app_nil_r, <- Hitems.
  do 3 f_equal. lia.
Qed.

(** Running from the start is running from any state the loop reaches. *)
Lemma fetch_loop_reaches post qc p acc :
  reaches post qc p acc →
  ∀ fuel, fetch_loop (Z.to_nat (p - 1) + fuel) post qc [] 1
          = fetch_loop fuel post qc acc p.
Proof.
  induction 1 as [|p acc acc' Hreach IH Hstep]; intros fuel.
  - reflexivity.
  - apply reaches_inv in Hreach as [Hp _].
    replace (Z.to_nat (p + 1 - 1) + fuel)%nat
      with (Z.to_nat (p - 1) + S fuel)%nat by lia.
    rewrite IH. simpl. by rewrite Hstep.
Qed.

Lemma fetch_data_reaches post vsl qc p acc fuel r :
  reaches post (default vsl qc) p acc →
  (Z.to_nat p ≤ fuel)%nat →
  fetch_loop 1 post (default vsl qc) acc p = Some r →
  fetch_data fuel post vsl qc = Some r.
Proof.
  intros Hreach Hfuel Hlast.
  pose proof (reaches_inv _ _ _ _ Hreach) as [Hp _].
  unfold fetch_data.
  change (match qc with None => vsl | Some c => c end) with (default vsl qc).
  replace fuel with (Z.to_nat (p - 1) + S (fuel - Z.to_nat p))%nat by lia.
  rewrite (fetch_loop_reaches _ _ _ _ Hreach).
  simpl in *. destruct (page_step _ _ _); done.
Qed.

(** C1: when the response to page [p] is a transport failure (connection
    exception, status outside 200-299, undecodable body), a run that has
    come to page [p] returns the failure with its message and no record if [p]
    is the first page, and otherwise the records of pages 1 to [p - 1], all
    of them and in order, which are not empty. *)
Theorem transport_failure_first_or_later (post : Z → response) (vsl : str)
    (qc : option str) (p : Z) (acc : list item) :
  reaches post (default vsl qc) p acc →
  transport_failed (post p) = true →
  ∃ reason raw,
    failure_report (post p) = Some (ErrorDict reason raw)
    ∧ acc = collected post (default vsl qc) (Z.to_nat (p - 1))
    ∧ (p = 1 →
       acc = []
       ∧ ∀ fuel, (1 ≤ fuel)%nat →
           fetch_data fuel post vsl qc = Some (Return (encode (Failed reason raw))))
    ∧ (1 < p →
       acc ≠ []
       ∧ ∀ fuel, (Z.to_nat p ≤ fuel)%nat →
           fetch_data fuel post vsl qc = Some (Return (encode (Ok acc)))).
Proof.
  intros Hreach (reason & raw & Hrep)%transport_failed_report.
  pose proof (reaches_inv _ _ _ _ Hreach) as [Hp Hacc].
  exists reason, raw. split; [done|].
  split; [by apply reaches_collected|]. split.
  - intros ->. split; [by apply Hacc|]. intros fuel Hfuel.
    apply (fetch_data_reaches _ _ _ 1 acc); [done | lia |].
    simpl. rewrite (page_step_failure _ _ _ _ Hrep).
    by rewrite (proj1 Hacc).
  - intros Hlater.
    assert (acc ≠ []) as Hne by (intros ?; apply Hacc in H; lia).
    split; [done|]. intros fuel Hfuel.
    apply (fetch_data_reaches _ _ _ p acc); [done | lia |].
    simpl. rewrite (page_step_failure _ _ _ _ Hrep).
    by destruct acc.
Qed.

Lemma transport_failure_first_or_later_witness :
  fetch_data 5 (fun _ => ConnError (lit "timed out")) (lit "X") None
  = Some (Return [ErrorDict (msg_conn ++ lit "timed out") None])
  ∧ fetch_data 5 (fun p => if p =? 1 then page_of 2 (JInt 9) else Http 503 (Json JNull))
      (lit "X") None
    = Some (Return [ItemDict (item_of_row (Some (lit "X")) ∅);
                    ItemDict (item_of_row (Some (lit "X")) ∅)]).
Proof.
  split.
  - destruct (transport_failure_first_or_later
                (fun _ => ConnError (lit "timed out")) (lit "X") None 1 [])
      as (reason & raw & Hrep & _ & Hfirst & _).
    + apply reaches_first.
    + reflexivity.
    + injection Hrep as <- <-.
      apply (proj2 (Hfirst eq_refl) 5%nat). lia.
  - destruct (transport_failure_first_or_later
                (fun p => if p =? 1 then page_of 2 (JInt 9) else Http 503 (Json JNull))
                (lit "X") None 2
                [item_of_row (Some (lit "X")) ∅; item_of_row (Some (lit "X")) ∅])
      as (reason & raw & _ & _ & _ & Hlater).
    + apply (reaches_next _ _ 1 [] _ (reaches_first _ _)). reflexivity.
    + reflexivity.
    + apply (proj2 (Hlater ltac:(lia)) 5%nat). simpl. lia.
Defined.

(** The specification's sample run: pages 1 and 2 bring 1000 rows of a
    total of 1200 and page 3 fails, so the run returns the 1000 items. *)
Example partial_failure_preserved :
  length <$> (fetch_data 3
                (fun p => if p <? 3 then page_of 500 (JInt 1200)
                          else ConnError (lit "reset"))
                (lit "X") None
              ≫= fun r => match r with Return l => Some l | Raise _ => None end)
  = Some 1000%nat.
Proof. vm_compute. reflexivity. Qed.

(** ... and with a third page of 200 rows the loop stops there. *)
Example three_pages_of_1200 :
  let post p := if p <? 3 then page_of 500 (JInt 1200) else page_of 200 (JInt 1200) in
  fetch_data 2 post (lit "X") None = None
  ∧ length <$> (fetch_data 3 post (lit "X") None
                ≫= fun r => match r with Return l => Some l | Raise _ => None end)
    = Some 1200%nat.
Proof. vm_compute. split; reflexivity. Qed.

(** C9, as stated, fails: a first page whose body is the empty JSON object
    ends the run as a success with no records, not as a failure. *)
Lemma missing_fields_counterexample :
  fetch_data 1 (fun _ => Http 200 (Json (JDict ∅))) (lit "X") None
  = Some (Return (encode (Ok [])))
  ∧ ∀ reason raw, encode (Ok []) ≠ encode (Failed reason raw).
Proof. split; [reflexivity | discriminate]. Qed.

(** A body that is JSON but not an object is not a failure report either:
    [json_data.get] raises and nothing in [fetch_data] catches it. *)
Example non_object_body_raises :
  fetch_data 1 (fun _ => Http 200 (Json (JList []))) (lit "X") None
  = Some (Raise AttributeError).
Proof. reflexivity. Qed.

(** C9, amended: a JSON object without [data] is an empty page, the run
    stops and returns what it has collected as a success (on the first page,
    the empty list); a JSON object without [total] but with rows is a page
    whose total is 0, its rows are appended and the run stops as a
    success. *)
Theorem missing_fields_use_defaults (post : Z → response) (vsl : str)
    (qc : option str) (p : Z) (acc : list item) (d : gmap str json) :
  reaches post (default vsl qc) p acc →
  post p = Http 200 (Json (JDict d)) →
  (d !! lit "data" = None →
   ∀ fuel, (Z.to_nat p ≤ fuel)%nat →
     fetch_data fuel post vsl qc = Some (Return (encode (Ok acc))))
  ∧ (d !! lit "total" = None →
     ∀ raw_data rows,
       d !! lit "data" = Some raw_data →
       truthy raw_data = true →
       _parse_json_list raw_data (Some (default vsl qc)) = Return rows →
       ∀ fuel, (Z.to_nat p ≤ fuel)%nat →
         fetch_data fuel post vsl qc = Some (Return (encode (Ok (acc ++ rows))))).
Proof.
  intros Hreach Hpost. split.
  - intros Hdata fuel Hfuel.
    apply (fetch_data_reaches _ _ _ p acc); [done..|].
    simpl. rewrite Hpost. simpl. unfold dict_get_default. by rewrite Hdata.
  - intros Htotal raw_data rows Hdata Htruthy Hrows fuel Hfuel.
    apply (fetch_data_reaches _ _ _ p acc); [done..|].
    simpl. rewrite Hpost. simpl. unfold dict_get_default.
    rewrite Htotal, Hdata. simpl. rewrite Htruthy. simpl. rewrite Hrows. simpl.
    destruct (Z.leb_spec 0 (Z.of_nat (length (acc ++ rows)))); [done | lia].
Qed.

Lemma missing_fields_use_defaults_witness :
  fetch_data 1 (fun _ => Http 200 (Json (JDict ∅))) (lit "X") None
  = Some (Return [])
  ∧ fetch_data 1 (fun _ => Http 200 (Json (JDict (row_of "data" (JList [JDict ∅])))))
      (lit "X") None
    = Some (Return [ItemDict (item_of_row (Some (lit "X")) ∅)]).
Proof.
  split.
  - apply (proj1 (missing_fields_use_defaults
                    (fun _ => Http 200 (Json (JDict ∅))) (lit "X") None 1 [] ∅
                    (reaches_first _ _) eq_refl)).
    + reflexivity.
    + simpl. lia.
  - apply (proj2 (missing_fields_use_defaults
                    (fun _ => Http 200 (Json (JDict (row_of "data" (JList [JDict ∅])))))
                    (lit "X") None 1 [] (row_of "data" (JList [JDict ∅]))
                    (reaches_first _ _) eq_refl)
             eq_refl (JList [JDict ∅]) [item_of_row (Some (lit "X")) ∅]).
    + reflexivity.
    + reflexivity.
    + reflexivity.
    + simpl. lia.
Defined.

(** *** Termination *)

(** An integer total is bounded by [T] when it is at most [T]. *)
Lemma total_at_most_int T t : total_at_most T (JInt t) ↔ t ≤ T.
Proof.
  unfold total_at_most. simpl. split.
  - intros H. destruct (Z.le_gt_cases t T) as [|Hgt]; [done|].
    destruct (H T ltac:(lia)). f_equal. lia.
  - intros Ht n Hn [= Hge]. lia.
Qed.

Lemma fetch_loop_bounded (post : Z → response) (qc : str) (T : Z) :
  (∀ p total, reported_total (post p) = Some total → total_at_most T total) →
  ∀ fuel acc p,
    (Z.to_nat (T - Z.of_nat (length acc)) < fuel)%nat →
    ∃ r, fetch_loop fuel post qc acc p = Some r.
Proof.
  intros Hbound. induction fuel as [|fuel IH]; intros acc p Hfuel; [lia|].
  simpl. destruct (page_step qc acc (post p)) as [acc'| |] eqn:Hstep; [|by eexists..].
  apply page_step_next in Hstep as (total & rows & Htotal & _ & Hrows & -> & Hge).
  apply IH.
  assert (Z.of_nat (length (acc ++ rows)) < T) as Hlt.
  { destruct (Z.lt_ge_cases (Z.of_nat (length (acc ++ rows))) T) as [|Hle]; [done|].
    by destruct (Hbound _ _ Htotal _ Hle). }
  rewrite length_app in *. destruct rows; [done|]. simpl in *. lia.
Qed.

Lemma page_step_endless qc acc p :
  Z.of_nat (length acc) = p - 1 →
  page_step qc acc (endless p) = NextPage (acc ++ [item_of_row (Some qc) ∅]).
Proof.
  intros Hlen. unfold endless, page_of, page_step.
  change (negb (200 =? 200)) with false. cbn [get_default mbind pyresult_bind].
  unfold dict_get_default.
  rewrite lookup_insert_eq, lookup_insert_ne, lookup_insert_eq by (vm_compute; discriminate).
  cbn [default from_option id replicate truthy length Nat.eqb negb].
  change (_parse_json_list (JList [JDict ∅]) (Some qc))
    with (Return (A:=list item) [item_of_row (Some qc) ∅]).
  cbn [mbind pyresult_bind fmap list_fmap int_ge].
  rewrite length_app. cbn [length].
  destruct (Z.leb_spec (p + 1) (Z.of_nat (length acc + 1))); [lia | done].
Qed.

Lemma fetch_loop_endless qc fuel :
  ∀ acc p, Z.of_nat (length acc) = p - 1 → fetch_loop fuel endless qc acc p = None.
Proof.
  induction fuel as [|fuel IH]; intros acc p Hlen; [done|].
  cbn [fetch_loop]. rewrite page_step_endless by done.
  apply IH. rewrite length_app. simpl. lia.
Qed.


(** A short first page does not end the run either when the total is
    fixed: one pass is not enough, the second page is requested. *)
Example short_page_goes_on :
  fetch_data 1 (fun _ => page_of 1 (JInt 2)) (lit "X") None = None
  ∧ fetch_data 2 (fun _ => page_of 1 (JInt 2)) (lit "X") None
    = Some (Return [ItemDict (item_of_row (Some (lit "X")) ∅);
                    ItemDict (item_of_row (Some (lit "X")) ∅)]).
Proof. split; reflexivity. Qed.



(** ** The orchestrator *)

Lemma error_of_items (records : list item) : error_of (ItemDict <$> records) = None.
Proof. by destruct records. Qed.

(** One call sign: its records go to the end of [combined_results], its
    failure message to the end of [error_messages]. *)
Lemma query_one_spec fetch (label code : str) (o : option RunOutcome)
    (combined : list entry) (errors : list str) :
  run_gives fetch code o →
  query_one fetch label code (combined, errors)
  = Some (Return (combined ++ (ItemDict <$> records_of o),
                  errors ++ failure_of label code o)).
Proof.
  destruct o as [[records|reason raw]|]; simpl.
  - intros [Hcode Hfetch]. destruct code; [done|].
    rewrite Hfetch, error_of_items. by rewrite app_nil_r.
  - intros [Hcode Hfetch]. destruct code; [done|].
    rewrite Hfetch. simpl. by rewrite app_nil_r.
  - intros ->. by rewrite !app_nil_r.
Qed.

(** C3, as stated, fails in its third case: when one call sign brings
    records and the other fails, the outcome is the same whatever the failure
    message was, so the message does not reach the caller. *)
Lemma partial_failure_message_counterexample :
  let run reason :=
    task (fun code qc => fetch_data 3 (south_ok_north_down reason code) code qc)
      (lit "S") (lit "N") sample_ui in
  lit "timed out" ≠ lit "refused"
  ∧ ∃ u, run (lit "timed out") = Some u
         ∧ run (lit "refused") = Some u
         ∧ all_results u = [ItemDict (item_of_row (Some (lit "S")) ∅)]
         ∧ last_call u = ApplyFilter
         ∧ status_text u = status_done ++ lit "1" ++ status_records_partial.
Proof.
  split; [vm_compute; discriminate|].
  eexists. split; [vm_compute; reflexivity|].
  split; [vm_compute; reflexivity|].
  split; [vm_compute; reflexivity|].
  split; vm_compute; reflexivity.
Qed.

(** When both call signs fail, the two messages are shown, each with its
    label and call sign, joined by the separator. *)
Example both_fail_messages_joined :
  last_call <$> task (fun code qc => fetch_data 3 (fun _ => ConnError (lit "down")) code qc)
                  (lit "S") (lit "N") sample_ui
  = Some (ShowResults
            [ErrorDict ((msg_south ++ lit "S" ++ msg_query_failed ++ msg_conn ++ lit "down")
                        ++ msg_sep
                        ++ (msg_north ++ lit "N" ++ msg_query_failed ++ msg_conn ++ lit "down"))
               None]).
Proof. vm_compute. reflexivity. Qed.

(** Both call signs answer with no rows: no data. *)
Example both_empty :
  (fun u => (status_text u, all_results u, last_call u))
    <$> task (fun code qc => fetch_data 3 (fun _ => page_of 0 (JInt 0)) code qc)
          (lit "S") (lit "N") sample_ui
  = Some (status_no_data, [], ShowResults []).
Proof. vm_compute. reflexivity. Qed.

(** C3, amended: with [records] the records of the successful runs (south
    first) and [failures] the messages of the failed runs, each prefixed with
    its label and call sign: no record and a failure shows the joined messages;
    no record and no failure shows "no data"; a record and a failure hands the
    records to the display with a status line that gives the count and says
    that some call sign failed, without the messages; a record and no failure
    hands the records to the display with the count. *)
Theorem task_classification
    (fetch : str → option str → option (pyresult (list entry)))
    (south_code north_code : str) (south north : option RunOutcome) (u : ui) :
  run_gives fetch south_code south →
  run_gives fetch north_code north →
  let records := records_of south ++ records_of north in
  let failures :=
    failure_of msg_south south_code south ++ failure_of msg_north north_code north in
  ∃ u', task fetch south_code north_code u = Some u'
        ∧ match records, failures with
          | [], _ :: _ =>
              status_text u' = status_failed
              ∧ last_call u' = ShowResults [ErrorDict (join msg_sep failures) None]
          | [], [] =>
              status_text u' = status_no_data
              ∧ all_results u' = []
              ∧ last_call u' = ShowResults []
          | _ :: _, _ :: _ =>
              status_text u'
              = status_done ++ str_of_int (Z.of_nat (length records))
                ++ status_records_partial
              ∧ all_results u' = ItemDict <$> records
              ∧ last_call u' = ApplyFilter
          | _ :: _, [] =>
              status_text u'
              = status_done ++ str_of_int (Z.of_nat (length records))
                ++ status_records
              ∧ all_results u' = ItemDict <$> records
              ∧ last_call u' = ApplyFilter
          end.
Proof.
  intros Hsouth Hnorth records failures.
  unfold task.
  rewrite (query_one_spec _ _ _ _ _ _ Hsouth). cbn [mbind option_bind].
  rewrite (query_one_spec _ _ _ _ _ _ Hnorth). cbn [mbind option_bind app].
  rewrite <- fmap_app. fold records. fold failures.
  eexists. split; [reflexivity|].
  destruct records as [|r records'], failures as [|f failures']; simpl;
    rewrite ?length_fmap; done.
Qed.

Lemma task_classification_witness :
  ∃ u', task (fun code qc => fetch_data 3 (south_ok_north_down (lit "refused") code) code qc)
          (lit "S") (lit "N") sample_ui = Some u'
        ∧ status_text u' = status_done ++ lit "1" ++ status_records_partial
        ∧ all_results u' = [ItemDict (item_of_row (Some (lit "S")) ∅)]
        ∧ last_call u' = ApplyFilter.
Proof.
  apply (task_classification
           (fun code qc => fetch_data 3 (south_ok_north_down (lit "refused") code) code qc)
           (lit "S") (lit "N")
           (Some (Ok [item_of_row (Some (lit "S")) ∅]))
           (Some (Failed (msg_conn ++ lit "refused") None))
           sample_ui).
  - split; [discriminate | reflexivity].
  - split; [discriminate | reflexivity].
Defined.

(** * Further properties *)

(** ** Every way out of one pass of the loop *)

Lemma page_step_break qc acc resp acc' :
  page_step qc acc resp = Break acc' →
  acc' = acc ∨ acc' = acc ++ page_items qc resp.
Proof.
  unfold page_step, page_items, fail_or_break.
  destruct resp as [e|status_code b].
  { destruct acc; [discriminate | intros [= <-]; by left]. }
  destruct (status_code =? 200); simpl.
  2:{ destruct acc; [discriminate | intros [= <-]; by left]. }
  destruct b as [e text|json_data].
  { destruct acc; [discriminate | intros [= <-]; by left]. }
  destruct json_data; simpl; try discriminate.
  destruct (truthy (dict_get_default d (lit "data") (JList []))); simpl.
  2:{ intros [= <-]; by left. }
  destruct (_parse_json_list _ _) as [rows|e]; simpl; [|discriminate].
  destruct (int_ge _ _) as [[|]|e]; simpl; try discriminate.
  intros [= <-]. by right.
Qed.

Lemma page_step_leave_return qc acc resp l :
  page_step qc acc resp = Leave (Return l) →
  acc = [] ∧ ∃ err, failure_report resp = Some err ∧ l = [err].
Proof.
  unfold page_step, failure_report, fail_or_break.
  destruct resp as [e|status_code b].
  { destruct acc; [|discriminate]. intros [= <-]. eauto. }
  destruct (status_code =? 200); simpl.
  2:{ destruct acc; [|discriminate]. intros [= <-]. eauto. }
  destruct b as [e text|json_data].
  { destruct acc; [|discriminate]. intros [= <-]. eauto. }
  destruct json_data; simpl; try discriminate.
  destruct (truthy (dict_get_default d (lit "data") (JList []))); simpl;
    [|discriminate].
  destruct (_parse_json_list _ _) as [rows|e]; simpl; [|discriminate].
  destruct (int_ge _ _) as [[|]|e]; simpl; discriminate.
Qed.

Lemma collected_S post qc n :
  collected post qc (S n)
  = collected post qc n ++ page_items qc (post (Z.of_nat (S n))).
Proof.
  unfold collected. rewrite seq_S, flat_map_app. cbn [flat_map].
  by rewrite app_nil_r.
Qed.

(** From a state the loop reaches, a returned list is the failure report of
    the first page or the records of the first [n] pages. *)
Lemma fetch_loop_pages post qc fuel :
  ∀ p acc l,
    reaches post qc p acc →
    fetch_loop fuel post qc acc p = Some (Return l) →
    (∃ err, failure_report (post 1) = Some err ∧ l = [err])
    ∨ (∃ n, (n < Z.to_nat p + fuel)%nat ∧ l = ItemDict <$> collected post qc n).
Proof.
  induction fuel as [|fuel IH]; intros p acc l Hreach; [discriminate|].
  pose proof (reaches_inv _ _ _ _ Hreach) as [Hp Hfirst].
  pose proof (reaches_collected _ _ _ _ Hreach) as Hacc.
  cbn [fetch_loop].
  destruct (page_step qc acc (post p)) as [acc'|acc'|r] eqn:Hstep.
  - intros Hrun.
    destruct (IH _ _ _ (reaches_next _ _ _ _ _ Hreach Hstep) Hrun)
      as [?|(n & Hn & ->)]; [by left|].
    right. exists n. split; [lia | done].
  - intros [= <-]. right.
    apply page_step_break in Hstep as [->| ->].
    + exists (Z.to_nat (p - 1)). split; [lia | by rewrite <- Hacc].
    + exists (S (Z.to_nat (p - 1))). split; [lia|].
      rewrite collected_S, <- Hacc.
      by replace (Z.of_nat (S (Z.to_nat (p - 1)))) with p by lia.
  - intros [= ->]. left.
    apply page_step_leave_return in Hstep as (Hnil & err & Herr & ->).
    apply Hfirst in Hnil as ->. eauto.
Qed.

(** X1: a list that [fetch_data] returns is either the failure report of a
    rejected first page, alone, or the records of the first [n] pages for
    some [n] up to the number of passes: whole pages, in page order, nothing
    dropped from them, repeated or reordered. *)
Theorem fetch_data_returns_whole_pages (fuel : nat) (post : Z → response)
    (vsl : str) (qc : option str) (l : list entry) :
  fetch_data fuel post vsl qc = Some (Return l) →
  (∃ err, failure_report (post 1) = Some err ∧ l = [err])
  ∨ (∃ n, (n ≤ fuel)%nat ∧ l = ItemDict <$> collected post (default vsl qc) n).
Proof.
  unfold fetch_data.
  change (match qc with None => vsl | Some c => c end) with (default vsl qc).
  intros Hrun.
  destruct (fetch_loop_pages _ _ _ _ _ _ (reaches_first _ _) Hrun)
    as [?|(n & Hn & ->)]; [by left|].
  right. exists n. split; [simpl in Hn; lia | done].
Qed.

Lemma fetch_data_returns_whole_pages_witness :
  (∃ err, failure_report (Http 404 (Json JNull)) = Some err
          ∧ [ErrorDict (msg_http ++ lit "404") None] = [err])
  ∨ (∃ n, (n ≤ 3)%nat
          ∧ [ErrorDict (msg_http ++ lit "404") None]
            = ItemDict <$> collected (fun _ => Http 404 (Json JNull)) (lit "X") n).
Proof.
  apply (fetch_data_returns_whole_pages 3 (fun _ => Http 404 (Json JNull))
           (lit "X") None).
  reflexivity.
Defined.

(** *** The tag of every record *)

Lemma parse_rows_tag (qc : option str) rows results out :
  parse_rows qc rows results = Return out →
  Forall (fun it => query_code it = or_empty qc) results →
  Forall (fun it => query_code it = or_empty qc) out.
Proof.
  revert results. induction rows as [|row rows IH]; intros results; simpl.
  - by intros [= <-].
  - destruct row; simpl; try discriminate.
    intros Hrun Hres. apply (IH _ Hrun).
    apply Forall_app. split; [done|]. by constructor.
Qed.

Lemma page_items_tag qc resp :
  Forall (fun it => query_code it = qc) (page_items qc resp).
Proof.
  unfold page_items.
  destruct resp as [|status_code [|[]]]; try by constructor.
  destruct (_parse_json_list _ _) as [rows|e] eqn:Hrows; [|by constructor].
  unfold _parse_json_list in Hrows.
  destruct (iterate _) as [l|e]; simpl in Hrows; [|discriminate].
  apply parse_rows_tag in Hrows; [|by constructor].
  eapply Forall_impl; [exact Hrows|]. simpl. intros it ->. by destruct qc.
Qed.

Lemma collected_tag post qc n :
  Forall (fun it => query_code it = qc) (collected post qc n).
Proof.
  induction n as [|n IH]; [by constructor|].
  rewrite collected_S. apply Forall_app. split; [done | apply page_items_tag].
Qed.

(** X2: every record in a list that [fetch_data] returns carries the call
    sign of the run in [query_code]: the [query_code] argument when one is
    given, else [vsl_reg_no]. *)
Theorem fetch_data_tags_every_record (fuel : nat) (post : Z → response)
    (vsl : str) (qc : option str) (l : list entry) (it : item) :
  fetch_data fuel post vsl qc = Some (Return l) →
  ItemDict it ∈ l →
  query_code it = default vsl qc.
Proof.
  unfold fetch_data.
  change (match qc with None => vsl | Some c => c end) with (default vsl qc).
  intros Hrun Hin.
  destruct (fetch_loop_pages _ _ _ _ _ _ (reaches_first _ _) Hrun)
    as [(err & Herr & ->)|(n & _ & ->)].
  - apply list_elem_of_singleton in Hin as <-.
    destruct (post 1) as [|c [|]]; simpl in Herr;
      repeat (destruct (negb _) in Herr); by inversion Herr.
  - apply list_elem_of_fmap in Hin as (it' & [= <-] & Hin).
    pose proof (collected_tag post (default vsl qc) n) as Htag.
    rewrite Forall_forall in Htag. by apply Htag.
Qed.

Lemma fetch_data_tags_every_record_witness :
  query_code (item_of_row (Some (lit "X")) ∅) = lit "X".
Proof.
  apply (fetch_data_tags_every_record 2 (fun _ => page_of 1 (JInt 1))
           (lit "X") None [ItemDict (item_of_row (Some (lit "X")) ∅)]).
  - reflexivity.
  - apply list_elem_of_here.
Defined.

(** *** A server that serves what it reports *)

Lemma page_step_page_with (qc : str) (acc : list item) (rows : list (gmap str json)) (total : Z) :
  page_step qc acc (page_with rows (JInt total))
  = match rows with
    | [] => Break acc
    | _ :: _ =>
        let acc' := acc ++ (item_of_row (Some qc) <$> rows) in
        if total <=? Z.of_nat (length acc') then Break acc' else NextPage acc'
    end.
Proof.
  unfold page_with, page_step.
  change (negb (200 =? 200)) with false. cbn [get_default mbind pyresult_bind].
  unfold dict_get_default.
  rewrite lookup_insert_eq, lookup_insert_ne, lookup_insert_eq by (vm_compute; discriminate).
  cbn [default from_option id].
  destruct rows as [|row rows]; [reflexivity|].
  change (truthy (JList (JDict <$> row :: rows))) with true. cbn [negb].
  rewrite parse_json_list_dicts. cbn [mbind pyresult_bind int_ge].
  by destruct (_ <=? _).
Qed.

Lemma honest_loop (k : nat) (rows : list (gmap str json)) (qc : str) :
  (0 < k)%nat →
  ∀ fuel j,
    (j = 0 ∨ j * k < length rows)%nat →
    (length rows < (j + fuel) * k)%nat →
    fetch_loop fuel (honest k rows) qc
      (item_of_row (Some qc) <$> take (j * k) rows) (Z.of_nat (S j))
    = Some (Return (ItemDict <$> (item_of_row (Some qc) <$> rows))).
Proof.
  intros Hk. induction fuel as [|fuel IH]; intros j Hj Hfuel.
  { destruct Hj as [->|Hj]; simpl in *; [lia|].
    rewrite Nat.add_0_r in Hfuel. lia. }
  cbn [fetch_loop].
  replace (honest k rows (Z.of_nat (S j)))
    with (page_with (take k (drop (j * k) rows)) (JInt (Z.of_nat (length rows)))).
  2:{ unfold honest. rewrite Nat2Z.id. by replace (S j - 1)%nat with j by lia. }
  rewrite page_step_page_with.
  destruct (take k (drop (j * k) rows)) as [|row chunk] eqn:Hchunk.
  - assert (length (take k (drop (j * k) rows)) = 0%nat) as Hlen by by rewrite Hchunk.
    rewrite length_take, length_drop in Hlen.
    assert (length rows ≤ j * k)%nat as Hshort by lia.
    by rewrite take_ge by lia.
  - rewrite <- Hchunk. clear row chunk Hchunk.
    cbv zeta. rewrite <- fmap_app, take_take_drop.
    rewrite length_fmap, length_take.
    replace (j * k + k)%nat with (S j * k)%nat by lia.
    destruct (Z.leb_spec (Z.of_nat (length rows))
                (Z.of_nat ((S j * k) `min` length rows))) as [Hall|Hmore].
    + by rewrite take_ge by lia.
    + replace (Z.of_nat (S j) + 1) with (Z.of_nat (S (S j))) by lia.
      apply IH; [right; lia|].
      replace (S j + fuel)%nat with (j + S fuel)%nat by lia. done.
Qed.

(** X3: against a server that holds [rows], serves them [k] (at least one)
    to a page and reports their number as the total, the run returns the
    normalized form of every row, in the server's order, once the number of
    passes allowed exceeds [length rows / k]. *)
Theorem fetch_data_collects_every_row (k : nat) (rows : list (gmap str json))
    (fuel : nat) (vsl : str) (qc : option str) :
  (0 < k)%nat →
  (length rows < fuel * k)%nat →
  fetch_data fuel (honest k rows) vsl qc
  = Some (Return (ItemDict <$> (item_of_row (Some (default vsl qc)) <$> rows))).
Proof.
  intros Hk Hfuel. unfold fetch_data.
  change (match qc with None => vsl | Some c => c end) with (default vsl qc).
  apply (honest_loop k rows (default vsl qc) Hk fuel 0); [by left | done].
Qed.

Lemma fetch_data_collects_every_row_witness :
  fetch_data 3 (honest 2 [row_of "soNo" (JStr (lit "A1"));
                          row_of "soNo" (JStr (lit "A2"));
                          row_of "soNo" (JStr (lit "A3"))]) (lit "X") None
  = Some (Return (ItemDict <$>
                    (item_of_row (Some (lit "X")) <$>
                       [row_of "soNo" (JStr (lit "A1"));
                        row_of "soNo" (JStr (lit "A2"));
                        row_of "soNo" (JStr (lit "A3"))]))).
Proof.
  apply (fetch_data_collects_every_row 2
           [row_of "soNo" (JStr (lit "A1")); row_of "soNo" (JStr (lit "A2"));
            row_of "soNo" (JStr (lit "A3"))] 3 (lit "X") None);
    simpl; lia.
Defined.

(** *** Exceptions that leave [fetch_data] *)

Lemma parse_rows_raises_attribute (qc : option str) rows results e :
  parse_rows qc rows results = Raise e → e = AttributeError.
Proof.
  revert results. induction rows as [|row rows IH]; intros results; simpl.
  - discriminate.
  - destruct row; simpl; try (by intros [= <-]). apply IH.
Qed.

Lemma parse_rows_non_dict (qc : option str) rows results :
  forallb is_dict rows = false →
  parse_rows qc rows results = Raise AttributeError.
Proof.
  revert results. induction rows as [|row rows IH]; intros results; simpl.
  - discriminate.
  - destruct row; simpl; try reflexivity. apply IH.
Qed.

Lemma parse_json_list_raises (qc : option str) v e :
  _parse_json_list v qc = Raise e →
  (e = AttributeError ∨ e = TypeError) ∧ is_dict_list v = false.
Proof.
  unfold _parse_json_list.
  destruct v as [| | | |s|l|d]; cbn [iterate mbind pyresult_bind is_dict_list];
    try (intros [= <-]; by auto).
  - intros ->%parse_rows_raises_attribute. auto.
  - intros Hrows. rewrite (parse_rows_raises _ _ _ _ Hrows).
    apply parse_rows_raises_attribute in Hrows as ->. auto.
  - intros ->%parse_rows_raises_attribute. auto.
Qed.

Lemma int_ge_raises n v e :
  int_ge n v = Raise e → e = TypeError ∧ is_number v = false.
Proof.
  destruct v as [| | |f| | |]; cbn [int_ge is_number]; try discriminate;
    try (by intros [= <-]).
  destruct f; discriminate.
Qed.

Lemma page_step_raises qc acc resp e :
  page_step qc acc resp = Leave (Raise e) →
  well_shaped resp = false ∧ (e = AttributeError ∨ e = TypeError).
Proof.
  unfold page_step, well_shaped, fail_or_break.
  destruct resp as [e0|status_code b].
  { destruct acc; discriminate. }
  destruct (status_code =? 200); cbn [negb orb].
  2:{ destruct acc; discriminate. }
  destruct b as [e0 text|json_data].
  { destruct acc; discriminate. }
  destruct json_data; cbn [get_default mbind pyresult_bind];
    try (intros [= <-]; by auto).
  destruct (truthy (dict_get_default d (lit "data") (JList [])));
    cbn [negb orb]; [|discriminate].
  destruct (_parse_json_list _ _) as [rows|e'] eqn:Hrows; cbn [mbind pyresult_bind].
  - destruct (int_ge _ _) as [[|]|e'] eqn:Hge; cbn [mbind pyresult_bind mret pyresult_ret];
      try discriminate.
    intros [= <-]. apply int_ge_raises in Hge as [-> Hn].
    rewrite Hn, andb_false_r. auto.
  - intros [= <-]. apply parse_json_list_raises in Hrows as [He Hd].
    rewrite Hd. auto.
Qed.

Lemma fetch_loop_raises post qc fuel :
  ∀ p acc e,
    fetch_loop fuel post qc acc p = Some (Raise e) →
    (e = AttributeError ∨ e = TypeError)
    ∧ ∃ q, p ≤ q < p + Z.of_nat fuel ∧ well_shaped (post q) = false.
Proof.
  induction fuel as [|fuel IH]; intros p acc e; [discriminate|].
  cbn [fetch_loop].
  destruct (page_step qc acc (post p)) as [acc'|acc'|r] eqn:Hstep.
  - intros (He & q & Hq & Hbad)%IH. split; [done|]. exists q. split; [lia | done].
  - discriminate.
  - intros [= ->]. apply page_step_raises in Hstep as [Hbad He].
    split; [done|]. exists p. split; [lia | done].
Qed.

(** X5: a row that is not an object is not handled like a transport
    failure: when it comes on a page the run has reached, [AttributeError]
    leaves [fetch_data] and the records of the earlier pages are not
    returned. *)
Theorem non_object_row_loses_earlier_pages (post : Z → response) (vsl : str)
    (qc : option str) (p : Z) (acc : list item) (d : gmap str json)
    (rows : list json) :
  reaches post (default vsl qc) p acc →
  post p = Http 200 (Json (JDict d)) →
  d !! lit "data" = Some (JList rows) →
  forallb is_dict rows = false →
  ∀ fuel, (Z.to_nat p ≤ fuel)%nat →
    fetch_data fuel post vsl qc = Some (Raise AttributeError).
Proof.
  intros Hreach Hpost Hdata Hrows fuel Hfuel.
  apply (fetch_data_reaches _ _ _ p acc); [done..|].
  cbn [fetch_loop]. rewrite Hpost. unfold page_step.
  change (negb (200 =? 200)) with false. cbn [get_default mbind pyresult_bind].
  unfold dict_get_default. rewrite Hdata. cbn [default from_option id].
  destruct rows as [|row rows]; [discriminate|].
  cbn [truthy length Nat.eqb negb]. unfold _parse_json_list.
  cbn [iterate mbind pyresult_bind].
  by rewrite parse_rows_non_dict.
Qed.

Lemma non_object_row_loses_earlier_pages_witness :
  fetch_data 2
    (fun p => if p =? 1 then page_of 1 (JInt 9)
              else Http 200 (Json (JDict (row_of "data" (JList [JDict ∅; JNull])))))
    (lit "X") None
  = Some (Raise AttributeError).
Proof.
  apply (non_object_row_loses_earlier_pages
           (fun p => if p =? 1 then page_of 1 (JInt 9)
                     else Http 200 (Json (JDict (row_of "data" (JList [JDict ∅; JNull])))))
           (lit "X") None 2 [item_of_row (Some (lit "X")) ∅]
           (row_of "data" (JList [JDict ∅; JNull])) [JDict ∅; JNull]).
  - apply (reaches_next _ _ 1 [] _ (reaches_first _ _)). reflexivity.
  - reflexivity.
  - reflexivity.
  - reflexivity.
  - simpl. lia.
Defined.

(** ** The callback, the requests and the pauses *)

Section Callback.

Variable E : Type.
Variable post : Z → response.
Variable status_callback : callback E.
Variable vsl : str.

Lemma report_raises (msg : str) (x : E) :
  fst (report status_callback msg) = Some x →
  ∃ f, status_callback = Some f ∧ f msg = Some x.
Proof. destruct status_callback as [f|]; [eauto | discriminate]. Qed.

(** One pass of the loop with its events. *)
Lemma fetch_loop_log_step (fuel : nat) (qc : str) (acc : list item) (p : Z)
    (log : list event) :
  fetch_loop_log (S fuel) post status_callback vsl qc acc p log
  = match fst (report status_callback (msg_reading p)) with
    | Some x => Some (CallbackRaised x, log ++ [Progress (msg_reading p)])
    | None =>
        match page_step qc acc (post p) with
        | NextPage acc' =>
            fetch_loop_log fuel post status_callback vsl qc acc' (p + 1)
              (log ++ pass_events status_callback vsl p ++ [Sleep])
        | Break acc' =>
            Some (Returned (ItemDict <$> acc'),
                  log ++ pass_events status_callback vsl p)
        | Leave r => Some (end_of r, log ++ pass_events status_callback vsl p)
        end
    end.
Proof.
  cbn [fetch_loop_log]. unfold pass_events, report.
  destruct status_callback as [f|]; cbn [fst].
  - destruct (f (msg_reading p)); [done|].
    destruct (page_step qc acc (post p)); by rewrite <- ?app_assoc.
  - destruct (page_step qc acc (post p)); by rewrite <- ?app_assoc.
Qed.

(** The events of a run, and the pass in which it ends. *)
Lemma fetch_loop_log_events (qc : str) (fuel : nat) :
  ∀ acc p log r log',
    fetch_loop_log fuel post status_callback vsl qc acc p log = Some (r, log') →
    ∃ k, (k < fuel)%nat
         ∧ (∀ m, (m ≤ k)%nat →
              fetch_loop_log m post status_callback vsl qc acc p log = None)
         ∧ fetch_loop_log (S k) post status_callback vsl qc acc p log = Some (r, log')
         ∧ log' = log ++ full_passes status_callback vsl p k
                      ++ last_pass_events status_callback vsl (p + Z.of_nat k) r.
Proof.
  induction fuel as [|fuel IH]; intros acc p log r log'; [discriminate|].
  rewrite fetch_loop_log_step.
  destruct (fst (report status_callback (msg_reading p))) as [x|] eqn:Hcb.
  { intros [= <- <-]. exists 0%nat. split; [lia|].
    split; [intros m Hm; by replace m with 0%nat by lia|].
    split; [by rewrite fetch_loop_log_step, Hcb|].
    cbn [full_passes last_pass_events app]. by rewrite Z.add_0_r. }
  destruct (page_step qc acc (post p)) as [acc'|acc'|r'] eqn:Hstep.
  - intros (k & Hk & Hnone & Hrun & ->)%IH. exists (S k). split; [lia|].
    split; [|split].
    + intros [|m] Hm; [done|].
      rewrite fetch_loop_log_step, Hcb, Hstep. apply Hnone. lia.
    + by rewrite fetch_loop_log_step, Hcb, Hstep.
    + cbn [full_passes]. rewrite <- !app_assoc.
      by replace (p + 1 + Z.of_nat k) with (p + Z.of_nat (S k)) by lia.
  - intros [= <- <-]. exists 0%nat. split; [lia|].
    split; [intros m Hm; by replace m with 0%nat by lia|].
    split; [by rewrite fetch_loop_log_step, Hcb, Hstep|].
    cbn [full_passes last_pass_events app]. by rewrite Z.add_0_r.
  - intros [= <- <-]. exists 0%nat. split; [lia|].
    split; [intros m Hm; by replace m with 0%nat by lia|].
    split; [by rewrite fetch_loop_log_step, Hcb, Hstep|].
    cbn [full_passes app]. rewrite Z.add_0_r. by destruct r'.
Qed.

(** How a run with callback ends, against the run without. *)
Lemma fetch_loop_log_end (qc : str) (fuel : nat) :
  ∀ acc p log r log',
    fetch_loop_log fuel post status_callback vsl qc acc p log = Some (r, log') →
    match r with
    | Returned l => fetch_loop fuel post qc acc p = Some (Return l)
    | Raised e => fetch_loop fuel post qc acc p = Some (Raise e)
    | CallbackRaised x =>
        ∃ f q, status_callback = Some f
               ∧ p ≤ q < p + Z.of_nat fuel
               ∧ f (msg_reading q) = Some x
    end.
Proof.
  induction fuel as [|fuel IH]; intros acc p log r log'; [discriminate|].
  rewrite fetch_loop_log_step. cbn [fetch_loop].
  destruct (fst (report status_callback (msg_reading p))) as [x|] eqn:Hcb.
  { intros [= <- <-]. apply report_raises in Hcb as (f & -> & Hf).
    exists f, p. split; [done|]. split; [lia | done]. }
  destruct (page_step qc acc (post p)) as [acc'|acc'|r'].
  - intros Hrun%IH. destruct r; try done.
    destruct Hrun as (f & q & -> & Hq & Hf). exists f, q.
    split; [done|]. split; [lia | done].
  - by intros [= <- <-].
  - intros [= <- <-]. by destruct r'.
Qed.



End Callback.



(** ** The display *)

Lemma clean_list (data : list entry) :
  forallb is_item data = true → ∃ items, data = ItemDict <$> items.
Proof.
  induction data as [|e data IH]; simpl.
  - by exists [].
  - intros [He Hdata]%andb_true_iff. destruct (IH Hdata) as [items ->].
    destruct e; [discriminate|]. by exists (it :: items).
Qed.

Lemma clean_fmap (items : list item) : forallb is_item (ItemDict <$> items) = true.
Proof. by induction items. Qed.

Lemma show_cards_items (items : list item) (controls : list control) :
  show_cards (ItemDict <$> items) controls = Controls (controls ++ (card_of <$> items)).
Proof.
  revert controls. induction items as [|it items IH]; intros controls.
  - simpl. by rewrite app_nil_r.
  - cbn [fmap list_fmap show_cards]. rewrite IH. by rewrite <- app_assoc.
Qed.

Lemma show_cards_key_error (data : list entry) (controls : list control) :
  forallb is_item data = false →
  ∃ items e raw rest,
    data = (ItemDict <$> items) ++ ErrorDict e raw :: rest
    ∧ show_cards data controls = KeyErrorAfter (controls ++ (card_of <$> items)).
Proof.
  revert controls. induction data as [|[e raw|it] data IH]; intros controls; simpl.
  - discriminate.
  - intros _. exists [], e, raw, data. by rewrite app_nil_r.
  - intros (items & e & raw & rest & -> & ->)%(IH (controls ++ [card_of it])).
    exists (it :: items), e, raw, rest. by rewrite <- app_assoc.
Qed.

Lemma show_results_one_card_per_item_aux (it : item) (items : list item) :
  show_results (ItemDict <$> it :: items) = Controls (card_of <$> it :: items).
Proof.
  change (show_results (ItemDict <$> it :: items))
    with (show_cards (ItemDict <$> it :: items) []).
  by rewrite show_cards_items.
Qed.

Lemma show_results_items (items : list item) :
  show_results (ItemDict <$> items)
  = Controls match items with
             | [] => [Text msg_no_data]
             | _ :: _ => card_of <$> items
             end.
Proof.
  destruct items as [|it items]; [reflexivity|].
  apply show_results_one_card_per_item_aux.
Qed.

(** X7: for a list of items [show_results] puts one card per item in the
    result list, in the order of the list, built from the item's order number,
    quantity, call sign, vessel name and warehousing time (the declaration
    number is on no card); for the empty list it puts the single line "no
    data". *)
Theorem show_results_one_card_per_item (items : list item) :
  show_results (ItemDict <$> items)
  = Controls match items with
             | [] => [Text msg_no_data]
             | _ :: _ => card_of <$> items
             end.
Proof. apply show_results_items. Qed.

Lemma show_cards_until_error (items : list item) e raw rest controls :
  show_cards ((ItemDict <$> items) ++ ErrorDict e raw :: rest) controls
  = KeyErrorAfter (controls ++ (card_of <$> items)).
Proof.
  revert controls. induction items as [|it items IH]; intros controls.
  - simpl. by rewrite app_nil_r.
  - cbn [fmap list_fmap app show_cards]. rewrite IH. by rewrite <- app_assoc.
Qed.

(** X8: [show_results] fails with [KeyError] exactly on a list that starts
    with an item and holds an error report further on; the result list then
    holds the cards of the items before that report. *)
Theorem show_results_key_error_iff (data : list entry) (controls : list control) :
  show_results data = KeyErrorAfter controls
  ↔ ∃ it items e raw rest,
      data = (ItemDict <$> it :: items) ++ ErrorDict e raw :: rest
      ∧ controls = card_of <$> it :: items.
Proof.
  split.
  - intros Hshow. destruct data as [|[e raw|it] data]; try discriminate.
    destruct (forallb is_item data) eqn:Hclean.
    + apply clean_list in Hclean as [items ->].
      change (ItemDict it :: (ItemDict <$> items))
        with (ItemDict <$> it :: items) in Hshow.
      by rewrite show_results_one_card_per_item_aux in Hshow.
    + destruct (show_cards_key_error data [card_of it] Hclean)
        as (items & e & raw & rest & -> & Hcards).
      exists it, items, e, raw, rest. split; [done|].
      change (show_results (ItemDict it :: (ItemDict <$> items) ++ ErrorDict e raw :: rest))
        with (show_cards ((ItemDict <$> items) ++ ErrorDict e raw :: rest) [card_of it])
        in Hshow.
      rewrite Hcards in Hshow. by injection Hshow as <-.
  - intros (it & items & e & raw & rest & -> & ->).
    change (show_results ((ItemDict <$> it :: items) ++ ErrorDict e raw :: rest))
      with (show_cards ((ItemDict <$> items) ++ ErrorDict e raw :: rest) [card_of it]).
    by rewrite show_cards_until_error.
Qed.

(** ** The orchestrator and the cached result list *)

Lemma fetch_data_clean (fuel : nat) (post : Z → response) (vsl : str)
    (qc : option str) (l : list entry) :
  fetch_data fuel post vsl qc = Some (Return l) →
  error_of l = None →
  forallb is_item l = true.
Proof.
  unfold fetch_data. intros Hrun Herr.
  destruct (fetch_loop_pages _ _ _ _ _ _ (reaches_first _ _) Hrun)
    as [(err & Hrep & ->)|(n & _ & ->)].
  - destruct (post 1) as [|c [|]]; simpl in Hrep;
      repeat (destruct (negb _) in Hrep); inversion Hrep; subst; discriminate.
  - apply clean_fmap.
Qed.

Lemma query_one_clean fetch (label code : str) combined errors combined' errors' :
  (∀ c q l, fetch c q = Some (Return l) → error_of l = None →
            forallb is_item l = true) →
  forallb is_item combined = true →
  query_one fetch label code (combined, errors) = Some (Return (combined', errors')) →
  forallb is_item combined' = true.
Proof.
  intros Hfetch Hclean. unfold query_one.
  destruct code as [|c code]; [by intros [= <- <-]|].
  destruct (fetch _ _) as [[data|e]|] eqn:Hrun; try discriminate.
  destruct (error_of data) eqn:Herr; intros [= <- <-]; [done|].
  rewrite forallb_app, Hclean. by rewrite (Hfetch _ _ _ Hrun Herr).
Qed.

Lemma classify_results combined errors u :
  all_results (classify combined errors u) = all_results u
  ∨ all_results (classify combined errors u) = combined.
Proof. destruct combined, errors; simpl; auto. Qed.

(** X9: [task] run on [fetch_data] keeps error reports out of the cached
    list: if [all_results] holds items only before, it holds items only
    after, whatever the servers answer; showing it therefore never fails with
    [KeyError]. *)
Theorem task_keeps_cached_list_clean (fuel : nat) (portal : str → Z → response)
    (south_code north_code : str) (u u' : ui) :
  forallb is_item (all_results u) = true →
  task (fun code qc => fetch_data fuel (portal code) code qc)
    south_code north_code u = Some u' →
  forallb is_item (all_results u') = true
  ∧ ∃ controls, show_results (all_results u') = Controls controls.
Proof.
  intros Hbefore Htask.
  assert (forallb is_item (all_results u') = true) as Hafter.
  { revert Htask. unfold task.
    set (fetch := fun code qc => fetch_data fuel (portal code) code qc).
    assert (∀ c q l, fetch c q = Some (Return l) → error_of l = None →
                     forallb is_item l = true) as Hfetch
      by (intros c q l; apply fetch_data_clean).
    destruct (query_one fetch msg_south south_code ([], [])) as [[[c1 e1]|e]|] eqn:H1;
      cbn [mbind option_bind]; [|by intros [= <-]|discriminate].
    apply (query_one_clean _ _ _ [] _ _ _ Hfetch eq_refl) in H1.
    destruct (query_one fetch msg_north north_code (c1, e1)) as [[[c2 e2]|e]|] eqn:H2;
      cbn [mbind option_bind]; [|by intros [= <-]|discriminate].
    apply (query_one_clean _ _ _ _ _ _ _ Hfetch H1) in H2.
    intros [= <-]. by destruct (classify_results c2 e2 u) as [-> | ->]. }
  split; [done|].
  apply clean_list in Hafter as [items ->].
  rewrite show_results_items. eauto.
Qed.

Lemma task_keeps_cached_list_clean_witness :
  ∃ u', task (fun code qc =>
                fetch_data 3 (south_ok_north_down (lit "refused") code) code qc)
          (lit "S") (lit "N") sample_ui = Some u'
        ∧ forallb is_item (all_results u') = true
        ∧ ∃ controls, show_results (all_results u') = Controls controls.
Proof.
  eexists. split; [reflexivity|].
  apply (task_keeps_cached_list_clean 3 (south_ok_north_down (lit "refused"))
           (lit "S") (lit "N") sample_ui); reflexivity.
Defined.

(** X10: an exception that leaves either run ends [task] in its handler:
    the exception is shown, the cached list is left as it was and the button
    is enabled again.  When the south run raises, the north call sign is not
    queried; when the north run raises, the records the south run returned
    are not shown. *)
Theorem task_exception_discards_records
    (fetch : str → option str → option (pyresult (list entry)))
    (south_code north_code : str) (u : ui) (e : exn) :
  (south_code ≠ [] →
   fetch south_code (Some south_code) = Some (Raise e) →
   task fetch south_code north_code u = Some (after_exception e u))
  ∧ (∀ south : option RunOutcome,
       run_gives fetch south_code south →
       north_code ≠ [] →
       fetch north_code (Some north_code) = Some (Raise e) →
       task fetch south_code north_code u = Some (after_exception e u)).
Proof.
  split.
  - intros Hcode Hrun. unfold task, query_one.
    destruct south_code; [done|]. by rewrite Hrun.
  - intros south Hsouth Hcode Hrun. unfold task.
    rewrite (query_one_spec _ _ _ _ _ _ Hsouth). cbn [mbind option_bind].
    unfold query_one. destruct north_code; [done|]. by rewrite Hrun.
Qed.

Lemma task_exception_discards_records_witness :
  task (fun code qc =>
          fetch_data 3 (fun _ => if bool_decide (code = lit "S") then page_of 1 (JInt 1)
                                 else Http 200 (Json JNull)) code qc)
    (lit "S") (lit "N") sample_ui
  = Some (after_exception AttributeError sample_ui)
  ∧ task (fun code qc =>
            fetch_data 3 (fun _ => if bool_decide (code = lit "S") then Http 200 (Json JNull)
                                   else page_of 1 (JInt 1)) code qc)
      (lit "S") (lit "N") sample_ui
    = Some (after_exception AttributeError sample_ui).
Proof.
  split.
  - apply (proj2 (task_exception_discards_records _ (lit "S") (lit "N") sample_ui
                    AttributeError)
             (Some (Ok [item_of_row (Some (lit "S")) ∅]))).
    + split; [discriminate | reflexivity].
    + discriminate.
    + reflexivity.
  - apply (proj1 (task_exception_discards_records _ (lit "S") (lit "N") sample_ui
                    AttributeError)).
    + discriminate.
    + reflexivity.
Defined.

(** X11: when every queried call sign fails, [task] shows the joined
    messages and leaves the cached list as it was, so the filter box goes on
    working over the records of the query before. *)
Theorem task_all_failed_keeps_cached_list
    (fetch : str → option str → option (pyresult (list entry)))
    (south_code north_code : str) (south north : option RunOutcome) (u : ui) :
  run_gives fetch south_code south →
  run_gives fetch north_code north →
  records_of south ++ records_of north = [] →
  failure_of msg_south south_code south ++ failure_of msg_north north_code north ≠ [] →
  ∃ u', task fetch south_code north_code u = Some u'
        ∧ all_results u' = all_results u
        ∧ last_call u'
          = ShowResults
              [ErrorDict
                 (join msg_sep (failure_of msg_south south_code south
                                ++ failure_of msg_north north_code north)) None].
Proof.
  intros Hsouth Hnorth Hrecords Hfailures. unfold task.
  rewrite (query_one_spec _ _ _ _ _ _ Hsouth). cbn [mbind option_bind].
  rewrite (query_one_spec _ _ _ _ _ _ Hnorth). cbn [mbind option_bind app].
  rewrite <- fmap_app, Hrecords.
  destruct (failure_of msg_south south_code south
            ++ failure_of msg_north north_code north); [done|].
  eexists. split; [reflexivity|]. by split.
Qed.

Lemma task_all_failed_keeps_cached_list_witness :
  ∃ u', task (fun code qc => fetch_data 3 (fun _ => ConnError (lit "down")) code qc)
          (lit "S") [] 
          {| status_text := []; loading_visible := true; btn_query_disabled := true;
             all_results := [ItemDict (item_of_row None ∅)]; last_call := NoCall |}
        = Some u'
        ∧ all_results u' = [ItemDict (item_of_row None ∅)]
        ∧ last_call u'
          = ShowResults
              [ErrorDict (msg_south ++ lit "S" ++ msg_query_failed ++ msg_conn ++ lit "down")
                 None].
Proof.
  apply (task_all_failed_keeps_cached_list
           (fun code qc => fetch_data 3 (fun _ => ConnError (lit "down")) code qc)
           (lit "S") [] (Some (Failed (msg_conn ++ lit "down") None)) None).
  - split; [discriminate | reflexivity].
  - reflexivity.
  - reflexivity.
  - discriminate.
Defined.

(** ** White space around the call signs *)

Lemma lstrip_split (s : str) :
  ∃ pre, s = pre ++ lstrip s ∧ forallb unicode_isspace pre = true.
Proof.
  induction s as [|c s (pre & Hs & Hpre)]; [by exists []|].
  cbn [lstrip]. destruct (unicode_isspace c) eqn:Hc.
  - exists (c :: pre). split; [by rewrite Hs at 1 | by cbn [forallb]; rewrite Hc].
  - by exists [].
Qed.

Lemma lstrip_head (s : str) c r : lstrip s = c :: r → unicode_isspace c = false.
Proof.
  induction s as [|c' s IH]; [discriminate|].
  cbn [lstrip]. destruct (unicode_isspace c') eqn:Hc; [done|].
  by intros [= <- <-].
Qed.

Lemma lstrip_nil_iff (s : str) :
  lstrip s = [] ↔ forallb unicode_isspace s = true.
Proof.
  induction s as [|c s IH]; [done|].
  cbn [lstrip forallb]. destruct (unicode_isspace c); [done|].
  split; discriminate.
Qed.

Lemma forallb_reverse {A} (f : A → bool) (l : list A) :
  forallb f (reverse l) = forallb f l.
Proof.
  induction l as [|x l IH]; [done|].
  rewrite reverse_cons, forallb_app, IH. simpl.
  rewrite andb_true_r. apply andb_comm.
Qed.

Lemma strip_nil_iff (s : str) :
  strip s = [] ↔ forallb unicode_isspace s = true.
Proof.
  unfold strip. rewrite <- lstrip_nil_iff.
  split.
  - intros H. apply (f_equal reverse) in H. rewrite reverse_involutive in H.
    simpl in H. apply lstrip_nil_iff in H. rewrite forallb_reverse in H.
    destruct (lstrip s) as [|c r] eqn:Hs; [done|].
    apply lstrip_head in Hs. simpl in H. by rewrite Hs in H.
  - by intros ->.
Qed.

Lemma strip_split (s : str) :
  ∃ pre suf, s = pre ++ strip s ++ suf
             ∧ forallb unicode_isspace pre = true
             ∧ forallb unicode_isspace suf = true.
Proof.
  destruct (lstrip_split s) as (pre & Hs & Hpre).
  destruct (lstrip_split (reverse (lstrip s))) as (suf & Hr & Hsuf).
  exists pre, (reverse suf). split; [|by rewrite forallb_reverse].
  unfold strip. rewrite <- reverse_app, <- Hr, reverse_involutive. done.
Qed.

Lemma strip_ends (s : str) :
  (∀ c r, strip s = c :: r → unicode_isspace c = false)
  ∧ (∀ c r, strip s = r ++ [c] → unicode_isspace c = false).
Proof.
  unfold strip. split.
  - intros c r H.
    destruct (lstrip_split (reverse (lstrip s))) as (suf & Hr & Hsuf).
    apply (f_equal reverse) in H. rewrite reverse_involutive, reverse_cons in H.
    rewrite H in Hr. apply (f_equal reverse) in Hr.
    rewrite reverse_involutive, !reverse_app, reverse_involutive in Hr.
    simpl in Hr. by apply lstrip_head in Hr.
  - intros c r H. apply (f_equal reverse) in H.
    rewrite reverse_involutive, reverse_app in H. simpl in H.
    by apply lstrip_head in H.
Qed.

(** ** The click handler *)

Lemma start_query_state (south_ok north_ok : bool)
    (txt_south txt_north : option str) (storage : gmap str str) (u : ui) :
  let st := start_query south_ok north_ok txt_south txt_north storage u in
  if blank txt_south && blank txt_north
  then started_job st = None
       ∧ started_storage st = storage
       ∧ status_text (started_ui st) = msg_enter_code
       ∧ loading_visible (started_ui st) = loading_visible u
       ∧ btn_query_disabled (started_ui st) = btn_query_disabled u
       ∧ all_results (started_ui st) = all_results u
       ∧ last_call (started_ui st) = last_call u
  else started_job st = Some (strip (default [] txt_south), strip (default [] txt_north))
       ∧ loading_visible (started_ui st) = true
       ∧ btn_query_disabled (started_ui st) = true
       ∧ all_results (started_ui st) = all_results u
       ∧ last_call (started_ui st) = NoCall.
Proof.
  unfold start_query, blank.
  destruct (forallb unicode_isspace (default [] txt_south)) eqn:Hs.
  - apply strip_nil_iff in Hs as ->.
    destruct (forallb unicode_isspace (default [] txt_north)) eqn:Hn.
    + apply strip_nil_iff in Hn as ->. simpl. done.
    + destruct (strip (default [] txt_north)) eqn:Hstrip; [|simpl; done].
      apply strip_nil_iff in Hstrip. congruence.
  - destruct (strip (default [] txt_south)) eqn:Hstrip; [|simpl; done].
    apply strip_nil_iff in Hstrip. congruence.
Qed.


(** X12: a click is refused exactly when both boxes hold nothing but white
    space (or nothing at all): then only the status line changes, nothing is
    written to the client storage and no query is started.  Otherwise the
    call signs handed to [task] are the box contents without the white space
    at either end, the form is locked and the result list is emptied. *)
Theorem start_query_refuses_blank_input (south_ok north_ok : bool)
    (txt_south txt_north : option str) (storage : gmap str str) (u : ui) :
  let st := start_query south_ok north_ok txt_south txt_north storage u in
  if blank txt_south && blank txt_north
  then started_job st = None
       ∧ started_storage st = storage
       ∧ status_text (started_ui st) = msg_enter_code
       ∧ loading_visible (started_ui st) = loading_visible u
       ∧ btn_query_disabled (started_ui st) = btn_query_disabled u
       ∧ all_results (started_ui st) = all_results u
       ∧ last_call (started_ui st) = last_call u
  else started_job st = Some (strip (default [] txt_south), strip (default [] txt_north))
       ∧ loading_visible (started_ui st) = true
       ∧ btn_query_disabled (started_ui st) = true
       ∧ all_results (started_ui st) = all_results u
       ∧ last_call (started_ui st) = NoCall.
Proof. apply start_query_state. Qed.

Lemma start_query_job (south_ok north_ok : bool)
    (txt_south txt_north : option str) (storage : gmap str str) (u : ui)
    (south_code north_code : str) :
  started_job (start_query south_ok north_ok txt_south txt_north storage u)
  = Some (south_code, north_code) →
  south_code = strip (default [] txt_south)
  ∧ north_code = strip (default [] txt_north)
  ∧ (south_code ≠ [] ∨ north_code ≠ []).
Proof.
  unfold start_query.
  destruct (strip (default [] txt_south)) as [|c s];
    [destruct (strip (default [] txt_north)) as [|c' n]; [discriminate|]|];
    cbn [started_job]; intros [= <- <-]; repeat split; auto.
Qed.

(** X13: a call sign handed to [task] is the content of its box with white
    space removed at both ends and nothing else: the box content is the call
    sign between two runs of white space, and the call sign neither begins nor
    ends with a white-space character. *)
Theorem start_query_strips_call_signs (south_ok north_ok : bool)
    (txt_south txt_north : option str) (storage : gmap str str) (u : ui)
    (south_code north_code : str) :
  started_job (start_query south_ok north_ok txt_south txt_north storage u)
  = Some (south_code, north_code) →
  Forall2 (fun txt code =>
             (∃ pre suf, default [] txt = pre ++ code ++ suf
                         ∧ forallb unicode_isspace pre = true
                         ∧ forallb unicode_isspace suf = true)
             ∧ (∀ c r, code = c :: r → unicode_isspace c = false)
             ∧ (∀ c r, code = r ++ [c] → unicode_isspace c = false))
    [txt_south; txt_north] [south_code; north_code]
  ∧ (south_code ≠ [] ∨ north_code ≠ []).
Proof.
  intros (-> & -> & Hone)%start_query_job. split; [|done].
  repeat constructor; try apply strip_split; apply strip_ends.
Qed.

Lemma start_query_strips_call_signs_witness :
  Forall2 (fun txt code =>
             (∃ pre suf, default [] txt = pre ++ code ++ suf
                         ∧ forallb unicode_isspace pre = true
                         ∧ forallb unicode_isspace suf = true)
             ∧ (∀ c r, code = c :: r → unicode_isspace c = false)
             ∧ (∀ c r, code = r ++ [c] → unicode_isspace c = false))
    [Some (lit " AB 1 "); None] [lit "AB 1"; []]
  ∧ (lit "AB 1" ≠ [] ∨ @nil N ≠ []).
Proof.
  apply (start_query_strips_call_signs true true (Some (lit " AB 1 ")) None ∅ sample_ui).
  reflexivity.
Defined.

(** X14: the call signs of an accepted click are what the next start of the
    program reads back: when both writes succeed, the stored south and north
    signs are the stripped box contents; a failing first write leaves the
    storage as it was, and a failing second write still keeps the south
    sign. *)
Theorem remembered_call_signs_round_trip (south_ok north_ok : bool)
    (txt_south txt_north : option str) (storage : gmap str str) (u : ui)
    (south_code north_code : str) :
  let st := start_query south_ok north_ok txt_south txt_north storage u in
  started_job st = Some (south_code, north_code) →
  (south_ok = true → last_code (started_storage st) SOUTH_KEY = south_code)
  ∧ (south_ok = true → north_ok = true →
     last_code (started_storage st) NORTH_KEY = north_code)
  ∧ (south_ok = false → started_storage st = storage)
  ∧ (north_ok = false →
     last_code (started_storage st) NORTH_KEY = last_code storage NORTH_KEY).
Proof.
  assert (SOUTH_KEY ≠ NORTH_KEY) as Hkeys by (vm_compute; discriminate).
  assert (∀ s n, started_job (start_query south_ok north_ok txt_south txt_north storage u)
                 = Some (s, n) →
                 started_storage (start_query south_ok north_ok txt_south txt_north storage u)
                 = remember south_ok north_ok s n storage) as Hst.
  { unfold start_query. intros s n.
    destruct (strip (default [] txt_south)), (strip (default [] txt_north));
      cbn [started_job started_storage]; try discriminate; by intros [= <- <-]. }
  intros st Hjob. subst st. rewrite (Hst _ _ Hjob).
  unfold remember, last_code.
  repeat split.
  - intros ->. destruct north_ok.
    + by rewrite lookup_insert_ne, lookup_insert_eq.
    + by rewrite lookup_insert_eq.
  - intros -> ->. by rewrite lookup_insert_eq.
  - by intros ->.
  - intros ->. destruct south_ok; [|done]. by rewrite lookup_insert_ne.
Qed.

Lemma remembered_call_signs_round_trip_witness :
  last_code (started_storage
               (start_query true true (Some (lit " S1")) (Some (lit "N1 ")) ∅ sample_ui))
    SOUTH_KEY = lit "S1"
  ∧ last_code (started_storage
                 (start_query true true (Some (lit " S1")) (Some (lit "N1 ")) ∅ sample_ui))
      NORTH_KEY = lit "N1".
Proof.
  destruct (remembered_call_signs_round_trip true true (Some (lit " S1"))
              (Some (lit "N1 ")) ∅ sample_ui (lit "S1") (lit "N1") eq_refl)
    as (Hsouth & Hnorth & _).
  split; [by apply Hsouth | by apply Hnorth].
Defined.

(** X15: when the background thread of an accepted click ends, with records,
    without, with failures or with an exception, the progress bar is hidden
    and the button enabled; a refused click leaves both as they were. *)
Theorem run_query_unlocks_the_form
    (fetch : str → option str → option (pyresult (list entry)))
    (south_ok north_ok : bool) (txt_south txt_north : option str)
    (storage : gmap str str) (u u' : ui) :
  run_query fetch south_ok north_ok txt_south txt_north storage u = Some u' →
  if blank txt_south && blank txt_north
  then loading_visible u' = loading_visible u
       ∧ btn_query_disabled u' = btn_query_disabled u
  else loading_visible u' = false ∧ btn_query_disabled u' = false.
Proof.
  unfold run_query.
  pose proof (start_query_state south_ok north_ok txt_south txt_north storage u) as Hst.
  destruct (blank txt_south && blank txt_north).
  - destruct Hst as (-> & _ & _ & Hl & Hb & _). by intros [= <-].
  - destruct Hst as (-> & _).
    unfold task.
    destruct (query_one fetch msg_south _ _) as [[[c1 e1]|e]|];
      cbn [mbind option_bind]; [|by intros [= <-]|discriminate].
    destruct (query_one fetch msg_north _ _) as [[[c2 e2]|e]|];
      cbn [mbind option_bind]; [|by intros [= <-]|discriminate].
    intros [= <-]. by destruct c2, e2.
Qed.

Lemma run_query_unlocks_the_form_witness :
  ∃ u', run_query (fun code qc => fetch_data 3 (fun _ => ConnError (lit "down")) code qc)
          true true (Some (lit "S")) None ∅ sample_ui = Some u'
        ∧ loading_visible u' = false ∧ btn_query_disabled u' = false.
Proof.
  eexists. split; [reflexivity|].
  apply (run_query_unlocks_the_form
           (fun code qc => fetch_data 3 (fun _ => ConnError (lit "down")) code qc)
           true true (Some (lit "S")) None ∅ sample_ui).
  reflexivity.
Defined.

(** ** The filter box *)

Lemma starts_with_spec (a b : str) :
  starts_with a b = true ↔ ∃ suf, b = a ++ suf.
Proof.
  revert b. induction a as [|x a IH]; intros b.
  - split; [by exists b | done].
  - destruct b as [|y b]; cbn [starts_with].
    + split; [discriminate | by intros [suf ?]].
    + rewrite andb_true_iff, N.eqb_eq, IH. split.
      * intros [-> [suf ->]]. by exists suf.
      * intros [suf [= -> ->]]. eauto.
Qed.

Lemma occurs_in_spec (a b : str) :
  occurs_in a b = true ↔ ∃ pre suf, b = pre ++ a ++ suf.
Proof.
  induction b as [|y b IH].
  - cbn [occurs_in]. rewrite orb_false_r, starts_with_spec. split.
    + intros [suf ->]. by exists [], suf.
    + intros (pre & suf & H). symmetry in H.
      apply app_eq_nil in H as [-> H]. by exists suf.
  - cbn [occurs_in]. rewrite orb_true_iff, starts_with_spec, IH. split.
    + intros [[suf ->]|(pre & suf & ->)].
      * by exists [], suf.
      * by exists (y :: pre), suf.
    + intros ([|z pre] & suf & H).
      * left. by exists suf.
      * right. injection H as -> ->. by exists pre, suf.
Qed.

Section FilterProperties.

Variable lower : str → str.
Variable str_of : json → pyresult str.

Lemma filter_so_spec (keyword : str) (l kept : list entry) :
  filter_so lower str_of keyword l = Return kept →
  sublist kept l
  ∧ ∀ e, e ∈ kept ↔ e ∈ l ∧ so_matches lower str_of keyword e = Return true.
Proof.
  revert kept. induction l as [|x l IH]; intros kept.
  - intros [= <-]. split; [constructor|]. intros e. split.
    + by intros ?%elem_of_nil.
    + by intros [?%elem_of_nil _].
  - cbn [filter_so].
    destruct (so_matches lower str_of keyword x) as [keep|err] eqn:Hx;
      cbn [mbind pyresult_bind]; [|discriminate].
    destruct (filter_so lower str_of keyword l) as [rest|err];
      cbn [mbind pyresult_bind]; [|discriminate].
    destruct (IH rest eq_refl) as [Hsub Hin].
    intros [= <-]. destruct keep.
    + split; [by constructor|]. intros e.
      rewrite !elem_of_cons, Hin. split.
      * intros [->|[? ?]]; auto.
      * intros [[->|?] ?]; auto.
    + split; [by constructor|]. intros e.
      rewrite elem_of_cons, Hin. split.
      * intros [? ?]; auto.
      * intros [[->|?] ?]; [congruence | auto].
Qed.

Lemma filter_so_returns (keyword : str) (l : list entry) :
  (∀ e, e ∈ l → ∃ s, str_of (so_no_or_empty e) = Return s) →
  ∃ kept, filter_so lower str_of keyword l = Return kept.
Proof.
  induction l as [|x l IH]; intros Hstr; [by eexists|].
  cbn [filter_so]. unfold so_matches at 1.
  destruct (Hstr x) as [s ->]; [left|]. cbn [mbind pyresult_bind].
  destruct IH as [rest ->]; [intros e He; apply Hstr; by right|].
  by eexists.
Qed.

Lemma so_matches_spec (keyword : str) (e : entry) :
  so_matches lower str_of keyword e = Return true
  ↔ ∃ text pre suf, str_of (so_no_or_empty e) = Return text
                    ∧ lower text = pre ++ lower keyword ++ suf.
Proof.
  unfold so_matches.
  destruct (str_of (so_no_or_empty e)) as [text|err]; cbn [mbind pyresult_bind].
  - split.
    + intros [= (pre & suf & H)%occurs_in_spec]. by exists text, pre, suf.
    + intros (text' & pre & suf & [= <-] & H).
      do 2 f_equal. apply occurs_in_spec. eauto.
  - split; [discriminate | by intros (? & ? & ? & ? & _)].
Qed.

(** X16: when [str] renders the order number of every cached entry, the
    filter shows a sub-sequence of the cached list (entries of the list, in
    the order of the list); with a box that is empty or holds only white
    space, it shows the whole list. *)
Theorem apply_filter_shows_selection (value : option str)
    (all_results : list entry) :
  (∀ e, e ∈ all_results → ∃ s, str_of (so_no_or_empty e) = Return s) →
  ∃ kept,
    apply_filter lower str_of value all_results = Return (show_results kept)
    ∧ sublist kept all_results
    ∧ (blank value = true → kept = all_results).
Proof.
  intros Hstr. unfold apply_filter, blank.
  destruct all_results as [|x l] eqn:Hall.
  { exists []. by repeat split. }
  rewrite <- Hall in *. clear x l Hall.
  destruct (strip (default [] value)) as [|c keyword] eqn:Hstrip.
  - exists all_results. by repeat split.
  - destruct (filter_so_returns (c :: keyword) all_results Hstr) as [kept Hkept].
    exists kept. rewrite Hkept. cbn [mbind pyresult_bind]. split; [done|].
    split; [by apply (filter_so_spec _ _ _ Hkept)|].
    intros Hblank%strip_nil_iff. congruence.
Qed.

(** X17: with a keyword in the box (after stripping), a cached entry is
    shown exactly when the lowered keyword occurs as a contiguous part of
    the lowered text of its order number. *)
Theorem apply_filter_keeps_matching_entries (value : option str)
    (all_results : list entry) :
  blank value = false →
  (∀ e, e ∈ all_results → ∃ s, str_of (so_no_or_empty e) = Return s) →
  ∃ kept,
    apply_filter lower str_of value all_results = Return (show_results kept)
    ∧ ∀ e, e ∈ kept
           ↔ e ∈ all_results
             ∧ ∃ text pre suf,
                 str_of (so_no_or_empty e) = Return text
                 ∧ lower text = pre ++ lower (strip (default [] value)) ++ suf.
Proof.
  intros Hblank Hstr. unfold apply_filter.
  destruct all_results as [|x l] eqn:Hall.
  { exists []. split; [done|]. intros e. split.
    - by intros ?%elem_of_nil.
    - by intros [?%elem_of_nil _]. }
  rewrite <- Hall in *. clear x l Hall.
  destruct (strip (default [] value)) as [|c keyword] eqn:Hstrip.
  { apply strip_nil_iff in Hstrip. unfold blank in Hblank. congruence. }
  destruct (filter_so_returns (c :: keyword) all_results Hstr) as [kept Hkept].
  exists kept. rewrite Hkept. cbn [mbind pyresult_bind]. split; [done|].
  intros e. rewrite (proj2 (filter_so_spec _ _ _ Hkept) e).
  by rewrite so_matches_spec.
Qed.

End FilterProperties.

Lemma apply_filter_shows_selection_witness :
  ∃ kept,
    apply_filter (fun s => s)
      (fun v => Return match v with JStr s => s | _ => [] end)
      (Some (lit " 2 "))
      [ItemDict (item_of_row None (row_of "soNo" (JStr (lit "A1"))));
       ItemDict (item_of_row None (row_of "soNo" (JStr (lit "A2"))))]
    = Return (show_results kept)
    ∧ sublist kept
        [ItemDict (item_of_row None (row_of "soNo" (JStr (lit "A1"))));
         ItemDict (item_of_row None (row_of "soNo" (JStr (lit "A2"))))]
    ∧ (blank (Some (lit " 2 ")) = true →
       kept = [ItemDict (item_of_row None (row_of "soNo" (JStr (lit "A1"))));
               ItemDict (item_of_row None (row_of "soNo" (JStr (lit "A2"))))]).
Proof.
  apply (apply_filter_shows_selection (fun s => s)
           (fun v => Return match v with JStr s => s | _ => [] end)).
  intros e _. by eexists.
Defined.

Lemma apply_filter_keeps_matching_entries_witness :
  ∃ kept,
    apply_filter (fun s => s)
      (fun v => Return match v with JStr s => s | _ => [] end)
      (Some (lit " 2 "))
      [ItemDict (item_of_row None (row_of "soNo" (JStr (lit "A1"))));
       ItemDict (item_of_row None (row_of "soNo" (JStr (lit "A2"))))]
    = Return (show_results kept)
    ∧ ∀ e, e ∈ kept
           ↔ e ∈ [ItemDict (item_of_row None (row_of "soNo" (JStr (lit "A1"))));
                  ItemDict (item_of_row None (row_of "soNo" (JStr (lit "A2"))))]
             ∧ ∃ text pre suf,
                 (fun v => Return match v with JStr s => s | _ => [] end)
                   (so_no_or_empty e) = Return text
                 ∧ text = pre ++ strip (default [] (Some (lit " 2 "))) ++ suf.
Proof.
  apply (apply_filter_keeps_matching_entries (fun s => s)
           (fun v => Return match v with JStr s => s | _ => [] end)
           (Some (lit " 2 "))).
  - reflexivity.
  - intros e _. by eexists.
Defined.
